(** * Crop Matcher: the matcher and the interaction state of [src/app/page.tsx]

    The page component [Home] keeps eight pieces of React state and reacts to
    text-change, key, focus and mouse events.  This development embeds

    - the string primitives the handlers call ([trim], [toLowerCase],
      [includes]) on strings of code units below U+0100;
    - the two catalog lookups ([products.filter(..).slice(0, 5)] and
      [products.find(..)]);
    - every event handler as the queue of state-setter calls it issues, read
      from the state of the render the handler closes over, and the
      [useEffect] on [suggestions];
    - the search path once more on the parsed JSON the fetch delivers, where
      an entry need not be a [Product];

    and proves the properties of the specification about them. *)

From Stdlib Require Import ZArith NArith Bool List Ascii String Lia.
Import ListNotations.

Local Open Scope string_scope.
Local Open Scope Z_scope.
Local Open Scope list_scope.

(* ------------------------------------------------------------------ *)
(** ** JavaScript string primitives                                    *)
(* ------------------------------------------------------------------ *)

(** A JavaScript string is a sequence of UTF-16 code units.  The model keeps
    the code units U+0000..U+00FF, one [ascii] each; on that range the three
    primitives below are the ECMAScript ones. *)
Module JsString.

(** [WhiteSpace] and [LineTerminator] code points below U+0100: TAB, LF, VT,
    FF, CR, SP and NBSP.  These are what [String.prototype.trim] strips. *)
Definition isWhiteSpace (c : ascii) : bool :=
  let n := N_of_ascii c in
  ((9 <=? n) && (n <=? 13) || (n =? 32) || (n =? 160))%N.

Fixpoint trimStart (s : string) : string :=
  match s with
  | EmptyString => EmptyString
  | String c s' => if isWhiteSpace c then trimStart s' else s
  end.

Fixpoint trimEnd (s : string) : string :=
  match s with
  | EmptyString => EmptyString
  | String c s' =>
      match trimEnd s' with
      | EmptyString => if isWhiteSpace c then EmptyString
                       else String c EmptyString
      | t => String c t
      end
  end.

(** [s.trim()] *)
Definition trim (s : string) : string := trimEnd (trimStart s).

(** The simple lower-case mapping on U+0000..U+00FF: A-Z and the Latin-1
    capitals U+00C0..U+00DE (without the multiplication sign U+00D7) move
    up by 32, everything else is kept. *)
Definition lowerChar (c : ascii) : ascii :=
  let n := N_of_ascii c in
  if ((65 <=? n) && (n <=? 90)
      || (192 <=? n) && (n <=? 222) && negb (n =? 215))%N
  then ascii_of_N (n + 32) else c.

(** [s.toLowerCase()] *)
Fixpoint toLowerCase (s : string) : string :=
  match s with
  | EmptyString => EmptyString
  | String c s' => String (lowerChar c) (toLowerCase s')
  end.

(** [s.startsWith(t)], the inner loop of the substring search. *)
Fixpoint startsWith (s t : string) : bool :=
  match t, s with
  | EmptyString, _ => true
  | String _ _, EmptyString => false
  | String b t', String a s' => Ascii.eqb a b && startsWith s' t'
  end.

(** [s.includes(t)]: is there a position of [s] at which [t] starts? *)
Fixpoint includes (s t : string) : bool :=
  startsWith s t ||
  match s with
  | EmptyString => false
  | String _ s' => includes s' t
  end.

(** ToBoolean on a string: the empty string is the only falsy one. *)
Definition truthy (s : string) : bool :=
  match s with
  | EmptyString => false
  | String _ _ => true
  end.

(** What "contains as a substring" means. *)
Definition Substring (t s : string) : Prop :=
  exists pre post, s = (pre ++ t ++ post)%string.

End JsString.

(* ------------------------------------------------------------------ *)
(** ** The catalog and the two lookups                                 *)
(* ------------------------------------------------------------------ *)

(** [interface Product] *)
Record Product : Type := mkProduct {
  cropId : string;
  title : string;
  price : string;
  image : string;
  buyLink : string
}.

Module Matcher.
Import JsString.

(** The predicate given to [products.filter] in [handleInputChange]:
    [product.cropId.toLowerCase().includes(value.toLowerCase()) ||
     product.title.toLowerCase().includes(value.toLowerCase())]. *)
Definition matchesIdOrTitle (value : string) (product : Product) : bool :=
  includes (toLowerCase (cropId product)) (toLowerCase value)
  || includes (toLowerCase (title product)) (toLowerCase value).

(** [products.filter(..)] of [handleInputChange]. *)
Definition filtered (products : list Product) (value : string) : list Product :=
  filter (matchesIdOrTitle value) products.

(** [a.slice(0, n)] *)
Definition slice0 {A : Type} (n : nat) (a : list A) : list A := firstn n a.

(** The list [handleInputChange] stores in [suggestions] for the text
    [value]: the specification's [suggest]. *)
Definition suggest (products : list Product) (value : string) : list Product :=
  if truthy (trim value) then slice0 5 (filtered products value) else [].

(** The predicate given to [products.find] in [handleSearch]:
    [product.cropId.toLowerCase().includes(input.trim().toLowerCase())]. *)
Definition matchesId (input : string) (product : Product) : bool :=
  includes (toLowerCase (cropId product)) (toLowerCase (trim input)).

(** [products.find(..)] of [handleSearch]: the specification's [findBest]. *)
Definition findBest (products : list Product) (input : string) : option Product :=
  find (matchesId input) products.

(** The two predicates, read as statements about substrings. *)
Definition ContainsQuery (value : string) (product : Product) : Prop :=
  Substring (toLowerCase value) (toLowerCase (cropId product))
  \/ Substring (toLowerCase value) (toLowerCase (title product)).

Definition IdContainsQuery (input : string) (product : Product) : Prop :=
  Substring (toLowerCase (trim input)) (toLowerCase (cropId product)).

(** [l] keeps the order of [m]: it is [m] with some entries left out. *)
Inductive Subsequence {A : Type} : list A -> list A -> Prop :=
| Subsequence_nil : Subsequence [] []
| Subsequence_skip x l m : Subsequence l m -> Subsequence l (x :: m)
| Subsequence_keep x l m : Subsequence l m -> Subsequence (x :: l) (x :: m).

(** [ms] lists, in the order of [l], exactly the entries of [l] that satisfy
    [P]. *)
Inductive AllMatches {A : Type} (P : A -> Prop) : list A -> list A -> Prop :=
| AllMatches_nil : AllMatches P [] []
| AllMatches_hit x l ms : P x -> AllMatches P l ms -> AllMatches P (x :: l) (x :: ms)
| AllMatches_miss x l ms : ~ P x -> AllMatches P l ms -> AllMatches P (x :: l) ms.

End Matcher.

(* ------------------------------------------------------------------ *)
(** ** The page: state, setters, handlers, events                      *)
(* ------------------------------------------------------------------ *)

Module Page.
Import JsString Matcher.

(** The value of [result]: [{ crop; matchedProduct }]. *)
Record SearchResult : Type := mkResult {
  crop : string;
  matchedProduct : Product
}.

(** The [useState] cells of [Home]. *)
Record State : Type := mkState {
  input : string;
  suggestions : list Product;
  showSuggestions : bool;
  result : option SearchResult;
  error : string;
  loading : bool;
  products : list Product;
  selectedSuggestionIndex : Z
}.

(** The state of the first render. *)
Definition initial : State :=
  mkState "" [] false None "" false [] (-1).

(** A call of one of the eight setters.  [setSelectedSuggestionIndex] is
    called both with a value and with an updater [prev => ..]. *)
Inductive SetState : Type :=
| setInput (v : string)
| setSuggestions (v : list Product)
| setShowSuggestions (v : bool)
| setResult (v : option SearchResult)
| setError (v : string)
| setLoading (v : bool)
| setProducts (v : list Product)
| setSelectedSuggestionIndex (v : Z)
| updateSelectedSuggestionIndex (f : Z -> Z).

Definition apply (u : SetState) (s : State) : State :=
  match u with
  | setInput v =>
      mkState v (suggestions s) (showSuggestions s) (result s) (error s)
              (loading s) (products s) (selectedSuggestionIndex s)
  | setSuggestions v =>
      mkState (input s) v (showSuggestions s) (result s) (error s)
              (loading s) (products s) (selectedSuggestionIndex s)
  | setShowSuggestions v =>
      mkState (input s) (suggestions s) v (result s) (error s)
              (loading s) (products s) (selectedSuggestionIndex s)
  | setResult v =>
      mkState (input s) (suggestions s) (showSuggestions s) v (error s)
              (loading s) (products s) (selectedSuggestionIndex s)
  | setError v =>
      mkState (input s) (suggestions s) (showSuggestions s) (result s) v
              (loading s) (products s) (selectedSuggestionIndex s)
  | setLoading v =>
      mkState (input s) (suggestions s) (showSuggestions s) (result s)
              (error s) v (products s) (selectedSuggestionIndex s)
  | setProducts v =>
      mkState (input s) (suggestions s) (showSuggestions s) (result s)
              (error s) (loading s) v (selectedSuggestionIndex s)
  | setSelectedSuggestionIndex v =>
      mkState (input s) (suggestions s) (showSuggestions s) (result s)
              (error s) (loading s) (products s) v
  | updateSelectedSuggestionIndex f =>
      mkState (input s) (suggestions s) (showSuggestions s) (result s)
              (error s) (loading s) (products s)
              (f (selectedSuggestionIndex s))
  end.

(** React applies the setter calls a handler queued, in the order of the
    calls, to the state the handler was rendered with. *)
Definition run (queue : list SetState) (s : State) : State :=
  fold_left (fun st u => apply u st) queue s.

(** [suggestions.length] *)
Definition len (s : State) : Z := Z.of_nat (List.length (suggestions s)).

(** The condition under which the dropdown is in the page:
    [showSuggestions && suggestions.length > 0]. *)
Definition dropdownRendered (s : State) : bool :=
  showSuggestions s && (0 <? len s).

(** *** Exceptions

    [handleSearch] wraps its lookup in [try .. catch]; an expression either
    completes normally or throws. *)
Inductive Completion (A : Type) : Type :=
| Normal (a : A)
| Throw (exn : string).
Arguments Normal {A} a.
Arguments Throw {A} exn.

Definition bind {A B : Type} (c : Completion A) (k : A -> Completion B)
  : Completion B :=
  match c with
  | Normal a => k a
  | Throw exn => Throw exn
  end.

Notation "x <- c ;; k" := (bind c (fun x => k))
  (at level 61, c at next level, right associativity).

(** A method of [String.prototype] called on a receiver of type [string]
    with arguments of type [string] completes normally. *)
Definition callString {A : Type} (method : string -> A) (receiver : string)
  : Completion A :=
  Normal (method receiver).

(** [Array.prototype.find]: the elements are tried in index order, the first
    one the callback accepts is returned, and a callback that throws ends
    the search with its exception. *)
Fixpoint findC {A : Type} (callback : A -> Completion bool) (a : list A)
  : Completion (option A) :=
  match a with
  | [] => Normal None
  | x :: a' =>
      accepted <- callback x ;;
      if accepted then Normal (Some x) else findC callback a'
  end.

(** The callback of [products.find] in [handleSearch], call by call. *)
Definition matchesIdC (s : State) (product : Product) : Completion bool :=
  id <- callString toLowerCase (cropId product) ;;
  trimmed <- callString trim (input s) ;;
  query <- callString toLowerCase trimmed ;;
  callString (fun receiver => includes receiver query) id.

(** The [const matched = products.find(..)] of the [try] block. *)
Definition tryFind (s : State) : Completion (option Product) :=
  findC (matchesIdC s) (products s).

(** *** Handlers

    A handler reads the state of the render it belongs to ([s]) and returns
    the setter calls it makes, in order. *)

Definition handleInputChange (s : State) (value : string) : list SetState :=
  [setInput value]
  ++ (if truthy (trim value)
      then [setSuggestions (slice0 5 (filtered (products s) value));
            setShowSuggestions true]
      else [setSuggestions []; setShowSuggestions false])
  ++ [setSelectedSuggestionIndex (-1)].

Definition selectSuggestion (product : Product) : list SetState :=
  [setInput (cropId product);
   setShowSuggestions false;
   setResult (Some (mkResult (cropId product) product))].

(** The three setter calls before the [try] block. *)
Definition searchStart : list SetState :=
  [setLoading true; setError ""; setResult None].

(** The [try] block with its [catch]. *)
Definition searchTry (s : State) : list SetState :=
  match tryFind s with
  | Normal (Some matched) =>
      [setResult (Some (mkResult (trim (input s)) matched))]
  | Normal None => [setError "No matching product found."]
  | Throw _ => [setError "Failed to fetch products."]
  end.

(** The [finally] block. *)
Definition searchFinally : list SetState := [setLoading false].

Definition handleSearch (s : State) : list SetState :=
  if negb (truthy (trim (input s))) then []
  else searchStart ++ searchTry s ++ searchFinally.

(** [e.key] *)
Inductive Key : Type := ArrowDown | ArrowUp | Enter | Escape | OtherKey.

Definition handleKeyDown (s : State) (key : Key) : list SetState :=
  if negb (showSuggestions s) then
    match key with
    | Enter => handleSearch s
    | ArrowDown => if 0 <? len s then [setShowSuggestions true] else []
    | _ => []
    end
  else
    match key with
    | ArrowDown =>
        [updateSelectedSuggestionIndex
           (fun prev => if prev <? len s - 1 then prev + 1 else prev)]
    | ArrowUp =>
        [updateSelectedSuggestionIndex
           (fun prev => if 0 <? prev then prev - 1 else prev)]
    | Enter =>
        if (0 <=? selectedSuggestionIndex s)
           && (selectedSuggestionIndex s <? len s)
        then match nth_error (suggestions s)
                             (Z.to_nat (selectedSuggestionIndex s)) with
             | Some product => selectSuggestion product
             | None => []   (* excluded by the bounds test *)
             end
        else handleSearch s
    | Escape => [setShowSuggestions false; setSelectedSuggestionIndex (-1)]
    | OtherKey => []
    end.

(** Where a [mousedown] lands. *)
Inductive Target : Type := InInput | InDropdown | Elsewhere.

(** [suggestionRef.current] is the dropdown element when it is rendered and
    [null] otherwise; [inputRef.current] is always the input element. *)
Definition handleClickOutside (s : State) (target : Target) : list SetState :=
  match target with
  | Elsewhere =>
      if dropdownRendered s
      then [setShowSuggestions false; setSelectedSuggestionIndex (-1)]
      else []
  | InInput | InDropdown => []
  end.

(** [onFocus] of the input. *)
Definition onFocus (s : State) : list SetState :=
  if truthy (trim (input s)) && (0 <? len s)
  then [setShowSuggestions true] else [].

(** [onMouseEnter] of the dropdown item [index]. *)
Definition onMouseEnter (index : nat) : list SetState :=
  [setSelectedSuggestionIndex (Z.of_nat index)].

(** *** Events *)

Inductive Event : Type :=
| FetchResolved (data : list Product)
| InputChange (value : string)
| KeyDown (key : Key)
| Focus
| MouseDown (target : Target)
| ClickSuggestion (index : nat)
| MouseEnterSuggestion (index : nat)
| ClickSearch.

(** The dropdown item [index] exists when the dropdown is rendered and
    [suggestions] has that index. *)
Definition suggestionItem (s : State) (index : nat) : option Product :=
  if dropdownRendered s then nth_error (suggestions s) index else None.

(** The setter calls an event causes.  An event on an element that is not
    in the page, or on the disabled search button, reaches no handler. *)
Definition dispatch (s : State) (e : Event) : list SetState :=
  match e with
  | FetchResolved data => [setProducts data]
  | InputChange value => handleInputChange s value
  | KeyDown key => handleKeyDown s key
  | Focus => onFocus s
  | MouseDown target => handleClickOutside s target
  | ClickSuggestion index =>
      match suggestionItem s index with
      | Some product => selectSuggestion product
      | None => []
      end
  | MouseEnterSuggestion index =>
      match suggestionItem s index with
      | Some _ => onMouseEnter index
      | None => []
      end
  | ClickSearch =>
      if loading s || negb (truthy (trim (input s))) then []
      else handleSearch s
  end.

Definition isSetSuggestions (u : SetState) : bool :=
  match u with
  | setSuggestions _ => true
  | _ => false
  end.

(** The [useEffect(.., [suggestions])]: every [setSuggestions] call stores a
    fresh array, so the effect runs after each render that follows one. *)
Definition effects (queue : list SetState) : list SetState :=
  if existsb isSetSuggestions queue
  then [setSelectedSuggestionIndex (-1)] else [].

(** One event: the handler's setter calls, then the effect. *)
Definition step (s : State) (e : Event) : State :=
  let queue := dispatch s e in
  run (effects queue) (run queue s).

(** The state after a sequence of events from the first render. *)
Definition after (events : list Event) : State :=
  fold_left step events initial.

(** The catalog of the specification's scenarios. *)
Definition sweetCorn : Product :=
  mkProduct "CORN01" "Sweet Corn" "0.5 ETH" "/corn.png" "https://shop/corn".
Definition winterWheat : Product :=
  mkProduct "WHEAT02" "Winter Wheat" "0.3 ETH" "/wheat.png" "https://shop/wheat".
Definition scenarioCatalog : list Product := [sweetCorn; winterWheat].

(** The page once the catalog of the scenarios has been fetched. *)
Definition loaded : State := step initial (FetchResolved scenarioCatalog).

(** A catalog in which an earlier entry's [cropId] contains a later one's. *)
Definition acorn : Product :=
  mkProduct "ACORN" "Oak Acorn" "0.1 ETH" "/acorn.png" "https://shop/acorn".
Definition corn : Product :=
  mkProduct "CORN" "Field Corn" "0.4 ETH" "/field.png" "https://shop/field".
Definition nestedCatalog : list Product := [acorn; corn].

(** The event [e] selects the suggestion [product] in the state [s]: a click
    on a dropdown item, or Enter in the open branch of [handleKeyDown] with
    [selectedSuggestionIndex] at an index of [suggestions]. *)
Inductive Selects (s : State) : Event -> Product -> Prop :=
| Selects_click index product :
    suggestionItem s index = Some product ->
    Selects s (ClickSuggestion index) product
| Selects_enter product :
    showSuggestions s = true ->
    0 <= selectedSuggestionIndex s ->
    nth_error (suggestions s) (Z.to_nat (selectedSuggestionIndex s))
      = Some product ->
    Selects s (KeyDown Enter) product.

(** [selectedSuggestionIndex] is -1 or an index of [suggestions]. *)
Definition IndexInRange (s : State) : Prop :=
  -1 <= selectedSuggestionIndex s <= len s - 1.

(** The two values [error] takes outside the [catch] branch. *)
Definition NoErrorOrNoMatch (s : State) : Prop :=
  error s = "" \/ error s = "No matching product found.".

(** The [result] and [error] a search that ran ends with. *)
Definition searchOutcome (s : State) : option SearchResult * string :=
  match findBest (products s) (input s) with
  | Some matched => (Some (mkResult (trim (input s)) matched), "")
  | None => (None, "No matching product found.")
  end.

(** Does the event [e], in the state [s], reach [handleSearch]?  Enter does
    with the dropdown flag off, or with the flag on and no valid highlight;
    the search button does unless it is disabled. *)
Definition runsSearch (s : State) (e : Event) : bool :=
  match e with
  | KeyDown Enter =>
      negb (showSuggestions s)
      || negb ((0 <=? selectedSuggestionIndex s)
               && (selectedSuggestionIndex s <? len s))
  | ClickSearch => negb (loading s || negb (truthy (trim (input s))))
  | _ => false
  end.

(** *** The rest of the component: the fetch and what is rendered *)

(** [fetchProducts] of the mount effect: the response parses to the catalog
    and [setProducts] stores it, or [fetch] / [res.json()] throws and the
    [catch] only logs. *)
Definition fetchProducts (response : Completion (list Product))
  : list SetState :=
  match response with
  | Normal data => [setProducts data]
  | Throw _ => []
  end.

Definition isFetch (e : Event) : bool :=
  match e with
  | FetchResolved _ => true
  | _ => false
  end.

(** [disabled={loading || !input.trim()}] of the search button. *)
Definition searchDisabled (s : State) : bool :=
  loading s || negb (truthy (trim (input s))).

(** The hint shown inside the input: nothing unless [input.trim()] is
    non-empty and there are suggestions, then "ESC to close" when
    [showSuggestions] is on and the down-arrow "for options" hint when it is
    off. *)
Inductive Badge : Type := EscToClose | DownForOptions.

Definition badge (s : State) : option Badge :=
  if truthy (trim (input s)) && (0 <? len s)
  then Some (if showSuggestions s then EscToClose else DownForOptions)
  else None.

(** The product an event selects, if it selects one: the computable side of
    [Selects]. *)
Definition selected (s : State) (e : Event) : option Product :=
  match e with
  | ClickSuggestion index => suggestionItem s index
  | KeyDown Enter =>
      if showSuggestions s
         && ((0 <=? selectedSuggestionIndex s)
             && (selectedSuggestionIndex s <? len s))
      then nth_error (suggestions s) (Z.to_nat (selectedSuggestionIndex s))
      else None
  | _ => None
  end.

(** The events that can reach [handleSearch] or [selectSuggestion]. *)
Definition isQuery (e : Event) : bool :=
  match e with
  | KeyDown Enter | ClickSearch | ClickSuggestion _ => true
  | _ => false
  end.

(** The text shown after "Result for:" occurs, up to case, in the [cropId]
    shown in the result card. *)
Definition ResultConsistent (s : State) : Prop :=
  match result s with
  | Some r =>
      Substring (toLowerCase (crop r))
                (toLowerCase (cropId (matchedProduct r)))
  | None => True
  end.

(** Every suggestion comes from the catalog, in catalog order. *)
Definition SuggestionsFromCatalog (s : State) : Prop :=
  Subsequence (suggestions s) (products s).

(** Every code unit of [s] is white space. *)
Fixpoint allWhiteSpace (s : string) : bool :=
  match s with
  | EmptyString => true
  | String c s' => isWhiteSpace c && allWhiteSpace s'
  end.

(** The key [key] pressed [n] times. *)
Definition press (key : Key) (n : nat) (s : State) : State :=
  fold_left step (repeat (KeyDown key) n) s.

(** The catalog of the last fetch that resolved, [[]] before the first. *)
Definition lastFetched (events : list Event) : list Product :=
  fold_left (fun catalog e =>
               match e with
               | FetchResolved data => data
               | _ => catalog
               end) events [].

End Page.

(* ------------------------------------------------------------------ *)
(** ** The search on the data the fetch delivers                       *)
(* ------------------------------------------------------------------ *)

(** [const data: Product[] = await res.json()] is a type annotation: nothing
    checks at run time that the parsed data is an array of objects with
    string fields.  [Page] above is the page on catalogs that are; this
    module is the search path on whatever [res.json()] returns, so that the
    [catch] branch of [handleSearch] has a way to be reached. *)
Module Runtime.
Import JsString Page.

(** A value of [JSON.parse].  Of a number only its being a number, and for
    truthiness its being zero, is used. *)
#[warnings="-register-all"] Inductive Json : Type :=
| JNull
| JBool (b : bool)
| JNumber (n : Z)
| JString (s : string)
| JArray (items : list Json)
| JObject (fields : list (string * Json)).

(** The own property [key] of a parsed object: of a repeated key the last
    occurrence is the one kept. *)
Fixpoint lookup (key : string) (fields : list (string * Json))
  : option Json :=
  match fields with
  | [] => None
  | (k, v) :: rest =>
      match lookup key rest with
      | Some later => Some later
      | None => if String.eqb k key then Some v else None
      end
  end.

(** [product.cropId]: reading a property of [null] throws a TypeError; an
    object gives its own property or [undefined] ([None]); booleans,
    numbers, strings and arrays have no property of that name. *)
Definition getCropId (product : Json) : Completion (option Json) :=
  match product with
  | JNull => Throw "TypeError"
  | JObject fields => Normal (lookup "cropId" fields)
  | JBool _ | JNumber _ | JString _ | JArray _ => Normal None
  end.

(** [v.toLowerCase()]: on [undefined] and [null] the property read throws,
    on a boolean, number, array or object [toLowerCase] is not a function;
    both are TypeErrors.  Only a string has the method. *)
Definition toLowerCaseOf (v : option Json) : Completion string :=
  match v with
  | Some (JString s) => callString toLowerCase s
  | _ => Throw "TypeError"
  end.

(** The callback of [products.find] in [handleSearch]:
    [product.cropId.toLowerCase().includes(input.trim().toLowerCase())]. *)
Definition matchesIdC (input : string) (product : Json) : Completion bool :=
  v <- getCropId product ;;
  id <- toLowerCaseOf v ;;
  trimmed <- callString trim input ;;
  query <- callString toLowerCase trimmed ;;
  callString (fun receiver => includes receiver query) id.

(** [products.find(callback)]: only an array has [find]. *)
Definition arrayFind (products : Json)
                     (callback : Json -> Completion bool)
  : Completion (option Json) :=
  match products with
  | JArray items => findC callback items
  | _ => Throw "TypeError"
  end.

(** ToBoolean, for [if (matched)]. *)
Definition jsTruthy (v : Json) : bool :=
  match v with
  | JNull => false
  | JBool b => b
  | JNumber n => negb (n =? 0)
  | JString s => truthy s
  | JArray _ | JObject _ => true
  end.

(** The cells the search path reads and writes. *)
Record Cells : Type := mkCells {
  input : string;
  products : Json;
  result : option (string * Json);
  error : string;
  loading : bool
}.

(** The first render: [products] starts as the empty array. *)
Definition initial : Cells := mkCells "" (JArray []) None "" false.

Inductive SetState : Type :=
| setInput (v : string)
| setProducts (v : Json)
| setResult (v : option (string * Json))
| setError (v : string)
| setLoading (v : bool).

Definition apply (u : SetState) (s : Cells) : Cells :=
  match u with
  | setInput v => mkCells v (products s) (result s) (error s) (loading s)
  | setProducts v => mkCells (input s) v (result s) (error s) (loading s)
  | setResult v => mkCells (input s) (products s) v (error s) (loading s)
  | setError v => mkCells (input s) (products s) (result s) v (loading s)
  | setLoading v => mkCells (input s) (products s) (result s) (error s) v
  end.

Definition run (queue : list SetState) (s : Cells) : Cells :=
  fold_left (fun st u => apply u st) queue s.

(** The [const matched = products.find(..)] of the [try] block. *)
Definition tryFind (s : Cells) : Completion (option Json) :=
  arrayFind (products s) (matchesIdC (input s)).

(** [handleSearch], with its [try], [catch] and [finally]. *)
Definition handleSearch (s : Cells) : list SetState :=
  if negb (truthy (trim (input s))) then []
  else
    [setLoading true; setError ""; setResult None]
    ++ match tryFind s with
       | Normal (Some matched) =>
           if jsTruthy matched
           then [setResult (Some (trim (input s), matched))]
           else [setError "No matching product found."]
       | Normal None => [setError "No matching product found."]
       | Throw _ => [setError "Failed to fetch products."]
       end
    ++ [setLoading false].

(** The events that reach these cells: the fetch resolving with parsed
    data, a text change (its [setInput(value)] comes first and is all it
    does to these cells, whether or not the filter after it throws), and a
    click on the search button, which is disabled under
    [loading || !input.trim()]. *)
Inductive Event : Type :=
| FetchResolved (data : Json)
| InputChange (value : string)
| ClickSearch.

Definition dispatch (s : Cells) (e : Event) : list SetState :=
  match e with
  | FetchResolved data => [setProducts data]
  | InputChange value => [setInput value]
  | ClickSearch =>
      if loading s || negb (truthy (trim (input s))) then []
      else handleSearch s
  end.

Definition step (s : Cells) (e : Event) : Cells := run (dispatch s e) s.

Definition after (events : list Event) : Cells :=
  fold_left step events initial.

(** The entry is an object whose [cropId] is a string. *)
Definition hasStringCropId (product : Json) : bool :=
  match getCropId product with
  | Normal (Some (JString _)) => true
  | _ => false
  end.

(** The data is an array of such entries: what [Product[]] promises of the
    one field the search reads. *)
Definition wellFormedCatalog (data : Json) : bool :=
  match data with
  | JArray items => forallb hasStringCropId items
  | _ => false
  end.

Definition wellFormedEvent (e : Event) : bool :=
  match e with
  | FetchResolved data => wellFormedCatalog data
  | _ => true
  end.

(** A [Product] record as the parsed object it stands for. *)
Definition encode (product : Product) : Json :=
  JObject [("cropId", JString (cropId product));
           ("title", JString (title product));
           ("price", JString (price product));
           ("image", JString (image product));
           ("buyLink", JString (buyLink product))].

(** A catalog whose only entry lacks [cropId]. *)
Definition untitledCatalog : Json :=
  JArray [JObject [("title", JString "Sweet Corn");
                   ("price", JString "0.5 ETH")]].

End Runtime.

(* ------------------------------------------------------------------ *)
(** ** Facts about the string primitives                               *)
(* ------------------------------------------------------------------ *)

Import JsString Matcher Page.

Lemma startsWith_spec s t :
  startsWith s t = true <-> exists post, s = (t ++ post)%string.
Proof.
  revert s; induction t as [|b t IH]; intros s; simpl.
  - destruct s; split; try reflexivity; intros _; eexists; reflexivity.
  - destruct s as [|a s]; simpl.
    + split; [discriminate | intros [post H]; discriminate].
    + rewrite andb_true_iff, Ascii.eqb_eq, IH. split.
      * intros [-> [post ->]]. now exists post.
      * intros [post H]. injection H as -> ->.
        split; [reflexivity | now exists post].
Qed.

Lemma includes_spec s t : includes s t = true <-> Substring t s.
Proof.
  unfold Substring. induction s as [|a s IH].
  - cbn [includes]. rewrite orb_false_r, startsWith_spec. split.
    + intros [post H]. now exists EmptyString, post.
    + intros [[|c pre] [post H]]; [now exists post | discriminate].
  - cbn [includes]. rewrite orb_true_iff, IH, startsWith_spec. split.
    + intros [[post H] | [pre [post H]]].
      * now exists EmptyString, post.
      * exists (String a pre), post. simpl. now rewrite H.
    + intros [[|c pre] [post H]].
      * left. now exists post.
      * right. simpl in H. injection H as -> ->. now exists pre, post.
Qed.

Lemma includes_false_spec s t : includes s t = false <-> ~ Substring t s.
Proof.
  rewrite <- includes_spec. destruct (includes s t); split; intros H;
    try reflexivity; try discriminate; try (intros H'; discriminate).
  now elim H.
Qed.

Lemma truthy_false s : truthy s = false <-> s = EmptyString.
Proof. destruct s; simpl; split; intros H; try reflexivity; discriminate. Qed.

Lemma truthy_true s : truthy s = true <-> s <> EmptyString.
Proof. destruct s; simpl; split; intros H; try reflexivity; congruence. Qed.

(** The primitives on a few inputs. *)
Example trim_example : trim "  a b   " = "a b".
Proof. reflexivity. Qed.

Example trim_blank_example : trim "   " = "" /\ truthy (trim "   ") = false.
Proof. split; reflexivity. Qed.

Example toLowerCase_example :
  toLowerCase "Sweet CORN01 [Z]" = "sweet corn01 [z]".
Proof. reflexivity. Qed.

Example lowerChar_latin1_example :
  lowerChar (ascii_of_N 201) = ascii_of_N 233
  /\ lowerChar (ascii_of_N 215) = ascii_of_N 215.
Proof. split; reflexivity. Qed.

Example includes_example :
  includes "sweet corn" "t c" = true
  /\ includes "corn01" "" = true
  /\ includes "corn01" "corn1" = false.
Proof. repeat split. Qed.

(* ------------------------------------------------------------------ *)
(** ** Facts about the lookups                                         *)
(* ------------------------------------------------------------------ *)

Lemma matchesIdOrTitle_spec value product :
  matchesIdOrTitle value product = true <-> ContainsQuery value product.
Proof.
  unfold matchesIdOrTitle, ContainsQuery.
  now rewrite orb_true_iff, !includes_spec.
Qed.

Lemma matchesId_spec q product :
  matchesId q product = true <-> IdContainsQuery q product.
Proof. unfold matchesId, IdContainsQuery. apply includes_spec. Qed.

Lemma matchesId_false_spec q product :
  matchesId q product = false <-> ~ IdContainsQuery q product.
Proof. unfold matchesId, IdContainsQuery. apply includes_false_spec. Qed.

Section ListFacts.
Context {A : Type}.
Implicit Types (l m : list A) (f : A -> bool) (P : A -> Prop).

Lemma Subsequence_refl l : Subsequence l l.
Proof. induction l; constructor; assumption. Qed.

Lemma Subsequence_nil_l l : Subsequence [] l.
Proof. induction l; constructor; assumption. Qed.

Lemma Subsequence_trans l m n :
  Subsequence l m -> Subsequence m n -> Subsequence l n.
Proof.
  intros H1 H2. revert l H1.
  induction H2 as [|x m n H2 IH|x m n H2 IH]; intros l H1.
  - assumption.
  - constructor. now apply IH.
  - inversion H1; subst.
    + apply Subsequence_skip. now apply IH.
    + apply Subsequence_keep. now apply IH.
Qed.

Lemma Subsequence_filter f l : Subsequence (filter f l) l.
Proof.
  induction l as [|x l IH]; simpl; [constructor|].
  destruct (f x); constructor; assumption.
Qed.

Lemma Subsequence_firstn n l : Subsequence (firstn n l) l.
Proof.
  revert l; induction n as [|n IH]; intros [|x l]; simpl;
    try apply Subsequence_nil_l.
  apply Subsequence_keep, IH.
Qed.

Lemma AllMatches_filter f P l :
  (forall x, f x = true <-> P x) -> AllMatches P l (filter f l).
Proof.
  intros Hf. induction l as [|x l IH]; simpl; [constructor|].
  destruct (f x) eqn:E.
  - apply AllMatches_hit; [now apply Hf | assumption].
  - apply AllMatches_miss; [|assumption].
    intros HP. apply Hf in HP. congruence.
Qed.

(** The relation determines the list of matches. *)
Lemma AllMatches_functional P l ms ms' :
  AllMatches P l ms -> AllMatches P l ms' -> ms = ms'.
Proof.
  intros H; revert ms'.
  induction H as [|x l ms Hx H IH|x l ms Hx H IH]; intros ms' H';
    inversion H'; subst; try contradiction; try reflexivity.
  - f_equal. now apply IH.
  - now apply IH.
Qed.

Lemma AllMatches_Forall P l ms : AllMatches P l ms -> Forall P ms.
Proof. induction 1; [constructor | constructor; assumption | assumption]. Qed.

Lemma Forall_firstn P n l : Forall P l -> Forall P (firstn n l).
Proof.
  intros H. revert n. induction H as [|x l Hx H IH]; intros [|n]; simpl;
    constructor; [assumption | apply IH].
Qed.

(** [List.find], read as "the first entry in list order that is accepted". *)
Lemma find_first f l :
  match find f l with
  | Some x => exists before rest,
      l = before ++ x :: rest /\ f x = true
      /\ Forall (fun y => f y = false) before
  | None => Forall (fun y => f y = false) l
  end.
Proof.
  induction l as [|y l IH]; simpl; [constructor|].
  destruct (f y) eqn:E.
  - exists [], l. repeat split; [assumption | constructor].
  - destruct (find f l) as [x|].
    + destruct IH as (before & rest & -> & Hx & Hb).
      exists (y :: before), rest. repeat split; [assumption|].
      constructor; assumption.
    + constructor; assumption.
Qed.

End ListFacts.

(* ------------------------------------------------------------------ *)
(** ** Facts about the handlers                                        *)
(* ------------------------------------------------------------------ *)

Lemma run_app q1 q2 s : run (q1 ++ q2) s = run q2 (run q1 s).
Proof. apply fold_left_app. Qed.

Lemma run_nil s : run [] s = s.
Proof. reflexivity. Qed.

(** With a catalog of [Product] records the callback of [find] never
    throws, and the lookup is [findBest]. *)
Lemma tryFind_normal s : tryFind s = Normal (findBest (products s) (input s)).
Proof.
  unfold tryFind, findBest.
  induction (products s) as [|product l IH]; simpl; [reflexivity|].
  unfold matchesIdC at 1, callString, bind; fold (matchesId (input s) product).
  destruct (matchesId (input s) product); [reflexivity | exact IH].
Qed.

(** The state after a text change, field by field. *)
Lemma step_InputChange s value :
  step s (InputChange value) =
  mkState value (suggest (products s) value) (truthy (trim value))
          (result s) (error s) (loading s) (products s) (-1).
Proof.
  unfold step, dispatch, handleInputChange, suggest.
  destruct (truthy (trim value)); reflexivity.
Qed.

Lemma suggest_length products value :
  (List.length (suggest products value) <= 5)%nat.
Proof.
  unfold suggest, slice0.
  destruct (truthy (trim value)); [apply firstn_le_length | simpl; lia].
Qed.

Lemma suggest_Subsequence products value :
  Subsequence (suggest products value) products.
Proof.
  unfold suggest, slice0, filtered. destruct (truthy (trim value)).
  - eapply Subsequence_trans;
      [apply Subsequence_firstn | apply Subsequence_filter].
  - apply Subsequence_nil_l.
Qed.

Lemma suggest_Forall products value :
  Forall (ContainsQuery value) (suggest products value).
Proof.
  unfold suggest, slice0, filtered. destruct (truthy (trim value));
    [|constructor].
  apply Forall_firstn, Forall_forall. intros p Hp.
  apply filter_In in Hp. now apply matchesIdOrTitle_spec.
Qed.

(* ------------------------------------------------------------------ *)
(** ** C1: the dropdown and the suggestions list                       *)
(* ------------------------------------------------------------------ *)

(** C1, as stated, fails on the [showSuggestions] cell: typing a text that
    matches no product leaves [suggestions] empty and sets
    [showSuggestions] to [true]. *)
Lemma C1_showSuggestions_true_without_suggestions :
  let s := step loaded (InputChange "xyz") in
  suggestions s = [] /\ showSuggestions s = true.
Proof. vm_compute. split; reflexivity. Qed.

(** C1 (amended): after a text change [showSuggestions] is [true] exactly
    when the text is non-blank, whatever the suggestions are; the dropdown is
    in the page only under [showSuggestions && suggestions.length > 0], so it
    is rendered after a text change exactly when the text is non-blank and the
    recomputed suggestions are non-empty, and in no state is it rendered with
    an empty suggestions list. *)
Theorem C1_dropdown_rendered_iff_suggestions (s : State) (value : string) :
  let s' := step s (InputChange value) in
  showSuggestions s' = truthy (trim value)
  /\ suggestions s' = suggest (products s) value
  /\ selectedSuggestionIndex s' = -1
  /\ (dropdownRendered s' = true <->
      trim value <> "" /\ suggestions s' <> [])
  /\ (dropdownRendered s = true -> suggestions s <> []).
Proof.
  cbv zeta. rewrite step_InputChange.
  unfold dropdownRendered, len. cbn [showSuggestions suggestions selectedSuggestionIndex].
  repeat split.
  - apply andb_true_iff in H as [H _]. now apply truthy_true.
  - apply andb_true_iff in H as [_ H]. apply Z.ltb_lt in H.
    intros E. rewrite E in H. simpl in H. lia.
  - intros [Hv Hs]. apply andb_true_iff. split; [now apply truthy_true|].
    apply Z.ltb_lt. destruct (suggest (products s) value); [congruence|].
    simpl. lia.
  - intros H E. apply andb_true_iff in H as [_ H]. apply Z.ltb_lt in H.
    rewrite E in H. simpl in H. lia.
Qed.

(* ------------------------------------------------------------------ *)
(** ** C2: the suggestions computed on a text change                   *)
(* ------------------------------------------------------------------ *)

(** C2, as stated, fails for a blank query: the title "Sweet Corn" contains
    the one-space query, so the first five matches are [sweetCorn] and
    [winterWheat], and the handler stores no suggestion. *)
Lemma C2_blank_query_drops_matches :
  let s := step loaded (InputChange " ") in
  suggestions s = []
  /\ slice0 5 (filtered scenarioCatalog " ") = [sweetCorn; winterWheat]
  /\ ContainsQuery " " sweetCorn.
Proof.
  vm_compute. repeat split. right. now exists "sweet", "corn".
Qed.

(** C2 (amended): for every catalog and every query, the suggestions stored
    by a text change are at most 5 products, each containing the case-folded
    query in its case-folded [cropId] or [title], in catalog order; for a
    query that is non-blank after [trim] they are the first 5 of all the
    matching catalog entries, and for a blank query they are empty. *)
Theorem C2_suggest_first_five (s : State) (value : string) :
  let out := suggestions (step s (InputChange value)) in
  out = suggest (products s) value
  /\ (List.length out <= 5)%nat
  /\ Forall (ContainsQuery value) out
  /\ Subsequence out (products s)
  /\ if truthy (trim value)
     then exists all, AllMatches (ContainsQuery value) (products s) all
                      /\ out = firstn 5 all
     else out = [].
Proof.
  cbv zeta. rewrite step_InputChange. cbn [suggestions].
  split; [reflexivity|]. split; [apply suggest_length|].
  split; [apply suggest_Forall|]. split; [apply suggest_Subsequence|].
  unfold suggest. destruct (truthy (trim value)); [|reflexivity].
  exists (filtered (products s) value). split; [|reflexivity].
  apply AllMatches_filter. intros p. apply matchesIdOrTitle_spec.
Qed.

(* ------------------------------------------------------------------ *)
(** ** C3: the lookup of the explicit search                           *)
(* ------------------------------------------------------------------ *)

(** C3: for every catalog and every query, [findBest] returns the first
    catalog entry, in catalog order, whose case-folded [cropId] contains the
    case-folded, trimmed query, and returns nothing when no entry's [cropId]
    contains it. *)
Theorem C3_findBest_first_match (products : list Product) (q : string) :
  match findBest products q with
  | Some product =>
      exists before rest,
        products = before ++ product :: rest
        /\ IdContainsQuery q product
        /\ Forall (fun p => ~ IdContainsQuery q p) before
  | None => Forall (fun p => ~ IdContainsQuery q p) products
  end.
Proof.
  unfold findBest. pose proof (find_first (matchesId q) products) as H.
  destruct (find (matchesId q) products) as [product|].
  - destruct H as (before & rest & -> & Hx & Hb).
    exists before, rest. split; [reflexivity|].
    split; [now apply matchesId_spec|].
    eapply Forall_impl; [|exact Hb]. intros p. apply matchesId_false_spec.
  - eapply Forall_impl; [|exact H]. intros p. apply matchesId_false_spec.
Qed.

(* ------------------------------------------------------------------ *)
(** ** The explicit search and the selection, field by field           *)
(* ------------------------------------------------------------------ *)

Lemma searchTry_cases s :
  searchTry s =
  match findBest (products s) (input s) with
  | Some matched => [setResult (Some (mkResult (trim (input s)) matched))]
  | None => [setError "No matching product found."]
  end.
Proof. unfold searchTry. now rewrite tryFind_normal. Qed.

Lemma handleSearch_blank s : trim (input s) = "" -> handleSearch s = [].
Proof. intros H. unfold handleSearch. now rewrite H. Qed.

Lemma handleSearch_nonblank s :
  trim (input s) <> "" ->
  handleSearch s = searchStart ++ searchTry s ++ searchFinally.
Proof.
  intros H. unfold handleSearch. apply truthy_true in H. now rewrite H.
Qed.

Lemma run_search_nonblank s0 s :
  trim (input s) <> "" ->
  run (handleSearch s) s0 =
  mkState (input s0) (suggestions s0) (showSuggestions s0)
          (fst (searchOutcome s)) (snd (searchOutcome s)) false
          (products s0) (selectedSuggestionIndex s0).
Proof.
  intros H. rewrite (handleSearch_nonblank s H), searchTry_cases.
  unfold searchOutcome.
  destruct (findBest (products s) (input s)); reflexivity.
Qed.

Lemma run_selectSuggestion product s :
  run (selectSuggestion product) s =
  mkState (cropId product) (suggestions s) false
          (Some (mkResult (cropId product) product)) (error s) (loading s)
          (products s) (selectedSuggestionIndex s).
Proof. reflexivity. Qed.

Lemma effects_handleSearch s : effects (handleSearch s) = [].
Proof.
  unfold handleSearch. destruct (negb (truthy (trim (input s))));
    [reflexivity|].
  rewrite searchTry_cases.
  destruct (findBest (products s) (input s)); reflexivity.
Qed.

(** An event that selects a suggestion runs [selectSuggestion] on it. *)
Lemma dispatch_Selects s e product :
  Selects s e product -> dispatch s e = selectSuggestion product.
Proof.
  intros [index p H | p Hshow Hlo H]; simpl.
  - now rewrite H.
  - unfold handleKeyDown. rewrite Hshow, H. simpl.
    assert (Hlt : selectedSuggestionIndex s < len s).
    { unfold len.
      assert (Z.to_nat (selectedSuggestionIndex s)
              < List.length (suggestions s))%nat
        by (apply nth_error_Some; rewrite H; discriminate).
      lia. }
    apply Z.leb_le in Hlo. apply Z.ltb_lt in Hlt. now rewrite Hlo, Hlt.
Qed.

Lemma step_Selects s e product :
  Selects s e product ->
  step s e =
  mkState (cropId product) (suggestions s) false
          (Some (mkResult (cropId product) product)) (error s) (loading s)
          (products s) (selectedSuggestionIndex s).
Proof.
  intros H. unfold step. now rewrite (dispatch_Selects s e product H).
Qed.

(* ------------------------------------------------------------------ *)
(** ** C4: what an explicit search does to [result] and [error]        *)
(* ------------------------------------------------------------------ *)

(** C4, as stated, fails for a search with a blank input: after a miss, a
    selection and the clearing of the text, Enter runs [handleSearch], the
    lookup on the (empty) text would hit [sweetCorn], and the handler
    returns at once, leaving both [result] and [error] set. *)
Lemma C4_blank_search_leaves_result_and_error :
  let s := after [FetchResolved scenarioCatalog; InputChange "xyz";
                  ClickSearch; InputChange "corn"; ClickSuggestion 0;
                  InputChange ""] in
  let s' := step s (KeyDown Enter) in
  dispatch s (KeyDown Enter) = handleSearch s
  /\ findBest (products s) (input s) = Some sweetCorn
  /\ result s' = Some (mkResult "CORN01" sweetCorn)
  /\ error s' = "No matching product found.".
Proof. vm_compute. repeat split. Qed.

(** C4 (amended): for every explicit search whose input is non-blank after
    [trim]: the setter calls made before the lookup clear both [result] and
    [error]; when the handler is done, on a [findBest] hit [result] holds the
    trimmed input with the product found and [error] is empty, on a miss
    [error] is exactly "No matching product found." and [result] is absent;
    [loading] ends [false].  The search button and Enter with the dropdown
    closed both run this handler. *)
Theorem C4_search_sets_result_or_error (s : State) :
  trim (input s) <> "" ->
  let started := run searchStart s in
  let s' := run (handleSearch s) s in
  (exists rest, handleSearch s = searchStart ++ rest)
  /\ (result started = None /\ error started = "")
  /\ match findBest (products s) (input s) with
     | Some matched =>
         result s' = Some (mkResult (trim (input s)) matched)
         /\ error s' = ""
     | None =>
         result s' = None /\ error s' = "No matching product found."
     end
  /\ loading s' = false
  /\ (loading s = false -> step s ClickSearch = s')
  /\ (showSuggestions s = false -> step s (KeyDown Enter) = s').
Proof.
  intros H. cbv zeta. rewrite (run_search_nonblank s s H).
  split; [exists (searchTry s ++ searchFinally);
          now apply handleSearch_nonblank|].
  split; [split; reflexivity|].
  split; [unfold searchOutcome;
          destruct (findBest (products s) (input s)); split; reflexivity|].
  split; [reflexivity|].
  split.
  - intros Hl. unfold step, dispatch. rewrite Hl.
    rewrite (proj2 (truthy_true _) H). cbn [negb orb].
    rewrite effects_handleSearch, run_search_nonblank by assumption.
    reflexivity.
  - intros Hs. unfold step, dispatch, handleKeyDown. rewrite Hs. cbn [negb].
    rewrite effects_handleSearch, run_search_nonblank by assumption.
    now rewrite Hs.
Qed.

(** A search that misses, after the text "xyz". *)
Lemma C4_search_sets_result_or_error_witness :
  let s := step loaded (InputChange "xyz") in
  trim (input s) <> ""
  /\ result (run (handleSearch s) s) = None
  /\ error (run (handleSearch s) s) = "No matching product found.".
Proof.
  assert (H : trim (input (step loaded (InputChange "xyz"))) <> "")
    by (vm_compute; discriminate).
  split; [exact H|].
  exact (proj1 (proj2 (proj2
    (C4_search_sets_result_or_error (step loaded (InputChange "xyz")) H)))).
Defined.

(* ------------------------------------------------------------------ *)
(** ** C5: the arrow keys                                              *)
(* ------------------------------------------------------------------ *)

(** C5, as stated, fails for Up without a highlight: with two suggestions
    open and [selectedSuggestionIndex] at -1, Up leaves it at -1, which is
    not in [0, len - 1]. *)
Lemma C5_up_without_highlight_stays_outside :
  let s := step loaded (InputChange "w") in
  let up := step s (KeyDown ArrowUp) in
  showSuggestions s = true
  /\ len s = 2
  /\ selectedSuggestionIndex s = -1
  /\ selectedSuggestionIndex up = -1
  /\ ~ (0 <= selectedSuggestionIndex up <= len up - 1).
Proof. vm_compute. repeat split. intros [H _]. now apply H. Qed.

(** C5 (amended): while [showSuggestions] is true, Down adds 1 to
    [selectedSuggestionIndex] unless it is already at [len - 1] or beyond,
    and Up subtracts 1 unless it is at 0 or below; nothing else changes.  For
    an index in [0, len - 1] this is a move by +1/-1 clamped to
    [0, len - 1], with no wraparound: Down at the last index and Up at 0
    stay.  From -1, Up stays at -1 and Down moves to 0 when there is a
    suggestion. *)
Theorem C5_arrows_move_without_wraparound (s : State) :
  showSuggestions s = true ->
  let i := selectedSuggestionIndex s in
  let down := step s (KeyDown ArrowDown) in
  let up := step s (KeyDown ArrowUp) in
  down = apply (setSelectedSuggestionIndex
                  (if i <? len s - 1 then i + 1 else i)) s
  /\ up = apply (setSelectedSuggestionIndex
                   (if 0 <? i then i - 1 else i)) s
  /\ (0 <= i <= len s - 1 ->
      selectedSuggestionIndex down = Z.min (i + 1) (len s - 1)
      /\ selectedSuggestionIndex up = Z.max (i - 1) 0)
  /\ (i = -1 ->
      selectedSuggestionIndex up = -1
      /\ selectedSuggestionIndex down = (if 0 <? len s then 0 else -1)).
Proof.
  intros Hshow. cbv zeta.
  unfold step, dispatch, handleKeyDown. rewrite Hshow.
  cbn [negb orb effects existsb isSetSuggestions run fold_left].
  split; [reflexivity|]. split; [reflexivity|].
  cbn [apply selectedSuggestionIndex]. split.
  - intros Hi.
    destruct (Z.ltb_spec (selectedSuggestionIndex s) (len s - 1));
      destruct (Z.ltb_spec 0 (selectedSuggestionIndex s)); lia.
  - intros ->. split; [reflexivity|].
    destruct (Z.ltb_spec (-1) (len s - 1)); destruct (Z.ltb_spec 0 (len s));
      lia.
Qed.

(** The scenario of the specification: two suggestions, Down, Down, Up. *)
Lemma C5_arrows_move_without_wraparound_witness :
  let s := step (step loaded (InputChange "w")) (KeyDown ArrowDown) in
  showSuggestions s = true
  /\ selectedSuggestionIndex s = 0
  /\ selectedSuggestionIndex (step s (KeyDown ArrowDown)) = Z.min (0 + 1) (2 - 1)
  /\ selectedSuggestionIndex (step s (KeyDown ArrowUp)) = Z.max (0 - 1) 0.
Proof.
  assert (H : showSuggestions
                (step (step loaded (InputChange "w")) (KeyDown ArrowDown))
              = true) by reflexivity.
  split; [exact H|]. split; [reflexivity|].
  refine (proj1 (proj2 (proj2
    (C5_arrows_move_without_wraparound
       (step (step loaded (InputChange "w")) (KeyDown ArrowDown)) H))) _).
  vm_compute. split; discriminate.
Defined.

(* ------------------------------------------------------------------ *)
(** ** One event, field by field                                       *)
(* ------------------------------------------------------------------ *)

Lemma run_handleSearch s0 s :
  run (handleSearch s) s0 =
  if truthy (trim (input s))
  then mkState (input s0) (suggestions s0) (showSuggestions s0)
               (fst (searchOutcome s)) (snd (searchOutcome s)) false
               (products s0) (selectedSuggestionIndex s0)
  else s0.
Proof.
  destruct (truthy (trim (input s))) eqn:E.
  - apply run_search_nonblank. now apply truthy_true.
  - now rewrite handleSearch_blank by now apply truthy_false.
Qed.

Lemma nth_error_in_range (s : State) (i : Z) :
  0 <= i < len s -> nth_error (suggestions s) (Z.to_nat i) <> None.
Proof. unfold len. intros H. apply nth_error_Some. lia. Qed.

Lemma suggestionItem_index s index product :
  suggestionItem s index = Some product -> Z.of_nat index <= len s - 1.
Proof.
  unfold suggestionItem, len. destruct (dropdownRendered s); [|discriminate].
  intros H.
  assert (index < List.length (suggestions s))%nat
    by (apply nth_error_Some; rewrite H; discriminate).
  lia.
Qed.

(** Unfold one event down to the setter calls and split on every test. *)
Ltac split_tests :=
  repeat match goal with
    | |- context [if ?c then _ else _] => destruct c eqn:?
    | |- context [match ?o with Some _ => _ | None => _ end] =>
        destruct o eqn:?
    end.

Ltac step_cases :=
  unfold step, dispatch, handleKeyDown, handleClickOutside, onFocus,
    onMouseEnter, handleInputChange;
  rewrite ?effects_handleSearch, ?run_handleSearch;
  split_tests;
  rewrite ?effects_handleSearch, ?run_handleSearch;
  split_tests.

(** Only a text change replaces [suggestions]. *)
Lemma step_suggestions s e :
  suggestions (step s e) =
  match e with
  | InputChange value => suggest (products s) value
  | _ => suggestions s
  end.
Proof.
  destruct e as [data|value|[| | | |]| |[| |]|index|index|];
    try (rewrite step_InputChange; reflexivity);
    step_cases; reflexivity.
Qed.

(** What one event does to [selectedSuggestionIndex]. *)
Lemma step_selectedSuggestionIndex s e :
  selectedSuggestionIndex (step s e) =
  let i := selectedSuggestionIndex s in
  match e with
  | InputChange _ => -1
  | KeyDown ArrowDown =>
      if showSuggestions s
      then (if i <? len s - 1 then i + 1 else i) else i
  | KeyDown ArrowUp =>
      if showSuggestions s then (if 0 <? i then i - 1 else i) else i
  | KeyDown Escape => if showSuggestions s then -1 else i
  | MouseDown Elsewhere => if dropdownRendered s then -1 else i
  | MouseEnterSuggestion index =>
      match suggestionItem s index with
      | Some _ => Z.of_nat index
      | None => i
      end
  | _ => i
  end.
Proof.
  cbv zeta.
  destruct e as [data|value|[| | | |]| |[| |]|index|index|];
    try (rewrite step_InputChange; reflexivity);
    step_cases; try reflexivity; try discriminate.
  all: simpl;
    match goal with H : (_ <? _) = _ |- _ => now rewrite H end.
Qed.

(** What one event does to [error]: only a search that runs writes it. *)
Lemma step_error s e :
  error (step s e) =
  if runsSearch s e && truthy (trim (input s))
  then snd (searchOutcome s) else error s.
Proof.
  destruct e as [data|value|[| | | |]| |[| |]|index|index|];
    try (rewrite step_InputChange; reflexivity);
    unfold runsSearch; step_cases;
    try reflexivity; try discriminate.
  all: exfalso; eapply nth_error_in_range; [|eassumption]; lia.
Qed.

Lemma step_IndexInRange s e : IndexInRange s -> IndexInRange (step s e).
Proof.
  unfold IndexInRange. intros H.
  assert (Hlen : len (step s e) =
                 match e with
                 | InputChange value =>
                     Z.of_nat (List.length (suggest (products s) value))
                 | _ => len s
                 end)
    by (unfold len; rewrite step_suggestions; now destruct e).
  rewrite step_selectedSuggestionIndex, Hlen. cbv zeta.
  destruct e as [data|value|[| | | |]| |[| |]|index|index|];
    try lia; split_tests; try lia.
  match goal with
  | H : suggestionItem s index = Some _ |- _ =>
      apply suggestionItem_index in H; lia
  end.
Qed.

Lemma after_snoc events e : after (events ++ [e]) = step (after events) e.
Proof. unfold after. now rewrite fold_left_app. Qed.

(** In every state the page reaches, the index is in range. *)
Lemma after_IndexInRange events : IndexInRange (after events).
Proof.
  induction events as [|e events IH] using rev_ind.
  - unfold IndexInRange, after, len. simpl. lia.
  - rewrite after_snoc. now apply step_IndexInRange.
Qed.

Lemma searchOutcome_error s :
  snd (searchOutcome s) = "" \/
  snd (searchOutcome s) = "No matching product found.".
Proof.
  unfold searchOutcome. destruct (findBest (products s) (input s));
    [left | right]; reflexivity.
Qed.

Lemma step_NoErrorOrNoMatch s e :
  NoErrorOrNoMatch s -> NoErrorOrNoMatch (step s e).
Proof.
  unfold NoErrorOrNoMatch. intros H. rewrite step_error.
  destruct (runsSearch s e && truthy (trim (input s)));
    [apply searchOutcome_error | exact H].
Qed.

Lemma after_NoErrorOrNoMatch events : NoErrorOrNoMatch (after events).
Proof.
  induction events as [|e events IH] using rev_ind.
  - now left.
  - rewrite after_snoc. now apply step_NoErrorOrNoMatch.
Qed.

(* ------------------------------------------------------------------ *)
(** ** C6: the highlighted index stays in range                        *)
(* ------------------------------------------------------------------ *)

(** C6: every event preserves "[selectedSuggestionIndex] is within
    [-1, len(suggestions) - 1]", and an event that sets [suggestions] (the
    effect on [suggestions] then runs), or after which [suggestions] differs,
    leaves the index at -1. *)
Theorem C6_index_in_range_preserved (s : State) (e : Event) :
  IndexInRange s ->
  IndexInRange (step s e)
  /\ (existsb isSetSuggestions (dispatch s e) = true ->
      selectedSuggestionIndex (step s e) = -1)
  /\ (suggestions (step s e) <> suggestions s ->
      selectedSuggestionIndex (step s e) = -1).
Proof.
  intros H. split; [now apply step_IndexInRange|]. split.
  - intros Hset. unfold step, effects. now rewrite Hset.
  - rewrite step_suggestions, step_selectedSuggestionIndex.
    destruct e; try reflexivity; intros Hne; now elim Hne.
Qed.

(** Highlight index 0 of two suggestions, then a new text. *)
Lemma C6_index_in_range_preserved_witness :
  let s := step (step loaded (InputChange "w")) (KeyDown ArrowDown) in
  let s' := step s (InputChange "wheat") in
  IndexInRange s
  /\ selectedSuggestionIndex s = 0
  /\ IndexInRange s'
  /\ selectedSuggestionIndex s' = -1.
Proof.
  assert (H : IndexInRange
                (step (step loaded (InputChange "w")) (KeyDown ArrowDown)))
    by (unfold IndexInRange; vm_compute; split; discriminate).
  pose proof (C6_index_in_range_preserved _ (InputChange "wheat") H)
    as (Hrange & Hset & _).
  split; [exact H|]. split; [reflexivity|]. split; [exact Hrange|].
  apply Hset. reflexivity.
Defined.

(* ------------------------------------------------------------------ *)
(** ** C7: selecting a suggestion                                      *)
(* ------------------------------------------------------------------ *)

Lemma Selects_setProducts s e product catalog :
  Selects s e product -> Selects (apply (setProducts catalog) s) e product.
Proof. intros [index p H | p Hshow Hlo H]; constructor; assumption. Qed.

(** C7: every selection of a suggestion, by a click on its dropdown item or
    by Enter with the dropdown flag on and a valid highlight, sets [input] to
    the product's [cropId], closes the dropdown and sets [result] to that
    [cropId] with that product.  The handler is the three setter calls of
    [selectSuggestion]: no lookup runs, and the outcome is the same under any
    catalog. *)
Theorem C7_selection_sets_input_and_result
  (s : State) (e : Event) (product : Product) :
  Selects s e product ->
  let s' := step s e in
  dispatch s e = selectSuggestion product
  /\ input s' = cropId product
  /\ showSuggestions s' = false
  /\ dropdownRendered s' = false
  /\ result s' = Some (mkResult (cropId product) product)
  /\ forall catalog,
       step (apply (setProducts catalog) s) e
       = apply (setProducts catalog) s'.
Proof.
  intros H. cbv zeta. rewrite (step_Selects s e product H).
  split; [now apply dispatch_Selects|].
  repeat (split; [reflexivity|]).
  intros catalog.
  now rewrite (step_Selects _ e product (Selects_setProducts _ _ _ catalog H)).
Qed.

(** Enter on the second of two suggestions: the product selected is [corn],
    where the lookup on its [cropId] would return [acorn]. *)
Lemma C7_selection_sets_input_and_result_witness :
  let s := after [FetchResolved nestedCatalog; InputChange "corn";
                  KeyDown ArrowDown; KeyDown ArrowDown] in
  let s' := step s (KeyDown Enter) in
  Selects s (KeyDown Enter) corn
  /\ input s' = "CORN"
  /\ result s' = Some (mkResult "CORN" corn)
  /\ findBest (products s') (input s') = Some acorn.
Proof.
  assert (H : Selects
                (after [FetchResolved nestedCatalog; InputChange "corn";
                        KeyDown ArrowDown; KeyDown ArrowDown])
                (KeyDown Enter) corn).
  { apply Selects_enter; [reflexivity | vm_compute; discriminate
                         | reflexivity]. }
  pose proof (C7_selection_sets_input_and_result _ _ _ H)
    as (_ & Hinput & _ & _ & Hresult & _).
  split; [exact H|]. split; [exact Hinput|]. split; [exact Hresult|].
  reflexivity.
Defined.

(** The scenario of the specification: a click on the only suggestion. *)
Lemma click_selects_sweetCorn :
  let s' := step (step loaded (InputChange "corn")) (ClickSuggestion 0) in
  input s' = "CORN01" /\ result s' = Some (mkResult "CORN01" sweetCorn).
Proof. split; reflexivity. Qed.

(* ------------------------------------------------------------------ *)
(** ** The [catch] branch on a catalog of [Product] records            *)
(* ------------------------------------------------------------------ *)

(** On a catalog of [Product] records, whose fields are strings, the lookup
    of the [try] block completes normally with the [findBest] value, so
    [handleSearch] never calls [setError("Failed to fetch products.")], and
    in every state the page reaches [error] is empty or is "No matching
    product found.".  What the fetch may deliver instead is the subject of
    [Runtime]. *)
Lemma typed_catalog_search_never_throws (s : State) (events : list Event) :
  tryFind s = Normal (findBest (products s) (input s))
  /\ ~ In (setError "Failed to fetch products.") (handleSearch s)
  /\ (error (after events) = ""
      \/ error (after events) = "No matching product found.")
  /\ error (after events) <> "Failed to fetch products.".
Proof.
  split; [apply tryFind_normal|]. split.
  - unfold handleSearch. destruct (negb (truthy (trim (input s))));
      [intros []|].
    rewrite searchTry_cases.
    destruct (findBest (products s) (input s)); simpl;
      intros H; repeat destruct H as [H|H]; try discriminate; exact H.
  - pose proof (after_NoErrorOrNoMatch events) as H.
    split; [exact H|]. destruct H as [-> | ->]; discriminate.
Qed.

(* ------------------------------------------------------------------ *)
(** ** C9: a selection does not touch [error]                          *)
(* ------------------------------------------------------------------ *)

(** C9: selecting a suggestion leaves [error] as it was; in a state that
    shows an error, the selection sets [result] and the error stays, so both
    are set afterwards. *)
Theorem C9_selection_keeps_error
  (s : State) (e : Event) (product : Product) :
  Selects s e product ->
  error s <> "" ->
  let s' := step s e in
  error s' = error s
  /\ result s' = Some (mkResult (cropId product) product)
  /\ result s' <> None
  /\ error s' <> "".
Proof.
  intros H Herr. cbv zeta. rewrite (step_Selects s e product H).
  cbn [error result]. repeat split; [discriminate | exact Herr].
Qed.

(** A miss on "xyz", then the text "corn" and a click on its suggestion. *)
Lemma C9_selection_keeps_error_witness :
  let s := after [FetchResolved scenarioCatalog; InputChange "xyz";
                  ClickSearch; InputChange "corn"] in
  let s' := step s (ClickSuggestion 0) in
  error s = "No matching product found."
  /\ error s' = "No matching product found."
  /\ result s' = Some (mkResult "CORN01" sweetCorn).
Proof.
  assert (H : Selects
                (after [FetchResolved scenarioCatalog; InputChange "xyz";
                        ClickSearch; InputChange "corn"])
                (ClickSuggestion 0) sweetCorn)
    by (apply Selects_click; reflexivity).
  assert (Herr : error
                   (after [FetchResolved scenarioCatalog; InputChange "xyz";
                           ClickSearch; InputChange "corn"]) <> "")
    by (vm_compute; discriminate).
  pose proof (C9_selection_keeps_error _ _ _ H Herr) as (He & Hr & _ & _).
  split; [reflexivity|]. split; [exact He | exact Hr].
Defined.

(* ------------------------------------------------------------------ *)
(** ** C10: a search with a blank input                                *)
(* ------------------------------------------------------------------ *)

(** C10: in every state whose [input] is empty or whitespace-only,
    [handleSearch] makes no setter call, so the search leaves the whole
    state as it is, [result], [error] and [loading] included; so do the
    search button and Enter whenever it reaches [handleSearch]. *)
Theorem C10_blank_search_is_noop (s : State) :
  trim (input s) = "" ->
  handleSearch s = []
  /\ run (handleSearch s) s = s
  /\ step s ClickSearch = s
  /\ (runsSearch s (KeyDown Enter) = true -> step s (KeyDown Enter) = s).
Proof.
  intros H. pose proof (handleSearch_blank s H) as Hq.
  split; [exact Hq|]. split; [now rewrite Hq|]. split.
  - unfold step, dispatch. rewrite Hq. now destruct (loading s || _).
  - unfold runsSearch, step, dispatch, handleKeyDown. rewrite Hq.
    destruct (showSuggestions s); cbn [negb orb]; [|reflexivity].
    intros Hr. apply negb_true_iff in Hr. now rewrite Hr.
Qed.

(** A whitespace-only text, then Enter. *)
Lemma C10_blank_search_is_noop_witness :
  let s := step loaded (InputChange "   ") in
  trim (input s) = ""
  /\ step s (KeyDown Enter) = s
  /\ error (step s (KeyDown Enter)) = "".
Proof.
  assert (H : trim (input (step loaded (InputChange "   "))) = "")
    by reflexivity.
  pose proof (C10_blank_search_is_noop _ H) as (_ & _ & _ & Henter).
  split; [exact H|].
  rewrite (Henter eq_refl). split; reflexivity.
Defined.

(* ------------------------------------------------------------------ *)
(** ** The scenarios of the specification                              *)
(* ------------------------------------------------------------------ *)

(** Typing "corn" suggests CORN01; Enter then searches for "corn". *)
Example scenario_type_corn_enter :
  let s := step loaded (InputChange "corn") in
  suggestions s = [sweetCorn]
  /\ result (step s (KeyDown Enter)) = Some (mkResult "corn" sweetCorn).
Proof. split; reflexivity. Qed.

(** Typing "xyz" and clicking Search reports the miss. *)
Example scenario_type_xyz_search :
  let s := step (step loaded (InputChange "xyz")) ClickSearch in
  error s = "No matching product found." /\ result s = None.
Proof. split; reflexivity. Qed.

(** Two suggestions: Down, Down, Up gives 0, 1, 0. *)
Example scenario_down_down_up :
  let s0 := step loaded (InputChange "w") in
  let s1 := step s0 (KeyDown ArrowDown) in
  let s2 := step s1 (KeyDown ArrowDown) in
  let s3 := step s2 (KeyDown ArrowDown) in
  let s4 := step s3 (KeyDown ArrowUp) in
  map selectedSuggestionIndex [s0; s1; s2; s3; s4] = [-1; 0; 1; 1; 0].
Proof. reflexivity. Qed.

(** A click outside the open dropdown closes it and keeps the text and the
    result. *)
Example scenario_click_outside :
  let s := step loaded (InputChange "corn") in
  let s' := step s (MouseDown Elsewhere) in
  dropdownRendered s = true
  /\ showSuggestions s' = false
  /\ input s' = input s
  /\ result s' = result s.
Proof. repeat split. Qed.

(* ------------------------------------------------------------------ *)
(** ** More about the string primitives                                *)
(* ------------------------------------------------------------------ *)

Lemma string_app_nil_r s : (s ++ "")%string = s.
Proof. induction s as [|c s IH]; simpl; [reflexivity | now rewrite IH]. Qed.

Lemma string_app_assoc a b c :
  ((a ++ b) ++ c)%string = (a ++ (b ++ c))%string.
Proof. induction a as [|x a IH]; simpl; [reflexivity | now rewrite IH]. Qed.

Lemma Substring_refl s : Substring s s.
Proof. exists "", "". simpl. now rewrite string_app_nil_r. Qed.

Lemma Substring_trans a b c : Substring a b -> Substring b c -> Substring a c.
Proof.
  intros (p1 & q1 & ->) (p2 & q2 & ->).
  exists (p2 ++ p1)%string, (q1 ++ q2)%string.
  now rewrite !string_app_assoc.
Qed.

Lemma Substring_app_l a b s : Substring (a ++ b) s -> Substring a s.
Proof.
  intros (p & q & ->). exists p, (b ++ q)%string.
  now rewrite !string_app_assoc.
Qed.

Lemma Substring_app_r a b s : Substring (a ++ b) s -> Substring b s.
Proof.
  intros (p & q & ->). exists (p ++ a)%string, q.
  now rewrite !string_app_assoc.
Qed.

Lemma toLowerCase_app a b :
  toLowerCase (a ++ b) = (toLowerCase a ++ toLowerCase b)%string.
Proof. induction a as [|x a IH]; simpl; [reflexivity | now rewrite IH]. Qed.

Lemma Substring_toLowerCase a b :
  Substring a b -> Substring (toLowerCase a) (toLowerCase b).
Proof.
  intros (p & q & ->). exists (toLowerCase p), (toLowerCase q).
  now rewrite !toLowerCase_app.
Qed.

Lemma trimStart_suffix s : exists pre, s = (pre ++ trimStart s)%string.
Proof.
  induction s as [|c s [pre IH]]; simpl.
  - now exists "".
  - destruct (isWhiteSpace c).
    + exists (String c pre). simpl. now rewrite <- IH.
    + now exists "".
Qed.

Lemma trimEnd_prefix s : exists post, s = (trimEnd s ++ post)%string.
Proof.
  induction s as [|c s [post IH]]; simpl.
  - now exists "".
  - destruct (trimEnd s) as [|d t] eqn:E.
    + destruct (isWhiteSpace c).
      * exists (String c s). reflexivity.
      * exists post. simpl in *. now rewrite <- IH.
    + exists post. cbn [append] in *. now rewrite <- IH.
Qed.

(** [s.trim()] is a piece of [s]. *)
Lemma trim_Substring s : Substring (trim s) s.
Proof.
  unfold trim. destruct (trimStart_suffix s) as [pre Hpre].
  destruct (trimEnd_prefix (trimStart s)) as [post Hpost].
  exists pre, post. now rewrite <- Hpost.
Qed.

Lemma lowerChar_idem c : lowerChar (lowerChar c) = lowerChar c.
Proof. destruct c as [[] [] [] [] [] [] [] []]; reflexivity. Qed.

Lemma isWhiteSpace_lowerChar c : isWhiteSpace (lowerChar c) = isWhiteSpace c.
Proof. destruct c as [[] [] [] [] [] [] [] []]; reflexivity. Qed.

Lemma toLowerCase_idem s : toLowerCase (toLowerCase s) = toLowerCase s.
Proof.
  induction s as [|c s IH]; simpl; [reflexivity|].
  now rewrite lowerChar_idem, IH.
Qed.

Lemma truthy_toLowerCase s : truthy (toLowerCase s) = truthy s.
Proof. now destruct s. Qed.

Lemma trimStart_toLowerCase s :
  trimStart (toLowerCase s) = toLowerCase (trimStart s).
Proof.
  induction s as [|c s IH]; simpl; [reflexivity|].
  rewrite isWhiteSpace_lowerChar. now destruct (isWhiteSpace c).
Qed.

Lemma trimEnd_toLowerCase s :
  trimEnd (toLowerCase s) = toLowerCase (trimEnd s).
Proof.
  induction s as [|c s IH]; simpl; [reflexivity|].
  rewrite IH, isWhiteSpace_lowerChar.
  destruct (trimEnd s); simpl; [now destruct (isWhiteSpace c) | reflexivity].
Qed.

(** Trimming and case folding commute. *)
Lemma trim_toLowerCase s : trim (toLowerCase s) = toLowerCase (trim s).
Proof. unfold trim. now rewrite trimStart_toLowerCase, trimEnd_toLowerCase. Qed.

Lemma allWhiteSpace_trimStart s :
  allWhiteSpace (trimStart s) = allWhiteSpace s.
Proof.
  induction s as [|c s IH]; simpl; [reflexivity|].
  destruct (isWhiteSpace c) eqn:E; simpl; [exact IH | now rewrite E].
Qed.

Lemma trimEnd_empty s : trimEnd s = "" <-> allWhiteSpace s = true.
Proof.
  induction s as [|c s IH]; simpl; [now split|].
  destruct (trimEnd s) as [|d t].
  - destruct (isWhiteSpace c); simpl.
    + split; intros _; [now apply IH | reflexivity].
    + split; discriminate.
  - split; [discriminate|]. rewrite andb_true_iff. intros [_ H].
    apply IH in H. discriminate.
Qed.

Lemma allWhiteSpace_blank s : truthy (trim s) = negb (allWhiteSpace s).
Proof.
  rewrite <- (allWhiteSpace_trimStart s). unfold trim.
  destruct (allWhiteSpace (trimStart s)) eqn:E.
  - apply trimEnd_empty in E. now rewrite E.
  - destruct (trimEnd (trimStart s)) eqn:T; [|reflexivity].
    apply trimEnd_empty in T. congruence.
Qed.

(* ------------------------------------------------------------------ *)
(** ** More about the lookups                                          *)
(* ------------------------------------------------------------------ *)

Lemma Subsequence_filter_impl {A : Type} (f g : A -> bool) (l : list A) :
  (forall x, f x = true -> g x = true) ->
  Subsequence (filter f l) (filter g l).
Proof.
  intros Hfg. induction l as [|x l IH]; simpl; [constructor|].
  destruct (f x) eqn:Ef.
  - rewrite (Hfg x Ef). now apply Subsequence_keep.
  - destruct (g x); [now apply Subsequence_skip | exact IH].
Qed.

Lemma matchesIdOrTitle_fold value value' product :
  toLowerCase value = toLowerCase value' ->
  matchesIdOrTitle value product = matchesIdOrTitle value' product.
Proof. unfold matchesIdOrTitle. now intros ->. Qed.

(** The guard [value.trim()] does not see case. *)
Lemma blank_fold value value' :
  toLowerCase value = toLowerCase value' ->
  truthy (trim value) = truthy (trim value').
Proof.
  intros H. rewrite <- (truthy_toLowerCase (trim value)),
    <- (truthy_toLowerCase (trim value')), <- !trim_toLowerCase.
  now rewrite H.
Qed.

(** An entry whose [cropId] contains the text as typed also contains the
    trimmed text. *)
Lemma includes_matchesId q product :
  includes (toLowerCase (cropId product)) (toLowerCase q) = true ->
  matchesId q product = true.
Proof.
  unfold matchesId. rewrite !includes_spec. intros H.
  eapply Substring_trans; [|exact H].
  apply Substring_toLowerCase, trim_Substring.
Qed.

Lemma findBest_hit products q product :
  In product products -> matchesId q product = true ->
  exists hit, findBest products q = Some hit.
Proof.
  intros Hin Hm. unfold findBest.
  destruct (find (matchesId q) products) as [hit|] eqn:E; [now exists hit|].
  pose proof (find_none _ _ E _ Hin). congruence.
Qed.

(** A product matches the search for its own [cropId]. *)
Lemma matchesId_self product : matchesId (cropId product) product = true.
Proof.
  apply includes_matchesId, includes_spec, Substring_refl.
Qed.

(* ------------------------------------------------------------------ *)
(** ** More about one event                                            *)
(* ------------------------------------------------------------------ *)

Lemma selected_Selects s e product :
  selected s e = Some product <-> Selects s e product.
Proof.
  split.
  - destruct e as [data|value|[| | | |]| |target|index|index|];
      simpl; try discriminate.
    + destruct (showSuggestions s) eqn:Hs; [|discriminate]. simpl.
      destruct (0 <=? selectedSuggestionIndex s) eqn:Hlo; [|discriminate].
      destruct (selectedSuggestionIndex s <? len s); [|discriminate].
      simpl. intros H.
      apply Selects_enter; [exact Hs | now apply Z.leb_le | exact H].
    + now constructor.
  - intros [index p H | p Hshow Hlo H]; simpl; [exact H|].
    rewrite Hshow. simpl.
    assert (Hlt : selectedSuggestionIndex s < len s).
    { unfold len.
      assert (Z.to_nat (selectedSuggestionIndex s)
              < List.length (suggestions s))%nat
        by (apply nth_error_Some; rewrite H; discriminate).
      lia. }
    apply Z.leb_le in Hlo. apply Z.ltb_lt in Hlt. now rewrite Hlo, Hlt.
Qed.

(** What one event does to [result]. *)
Lemma step_result s e :
  result (step s e) =
  if runsSearch s e && truthy (trim (input s))
  then fst (searchOutcome s)
  else match selected s e with
       | Some product => Some (mkResult (cropId product) product)
       | None => result s
       end.
Proof.
  destruct (selected s e) as [product|] eqn:E.
  - apply selected_Selects in E.
    rewrite (step_Selects s e product E). cbn [result].
    destruct E as [index p H | p Hshow Hlo H]; simpl; [reflexivity|].
    rewrite Hshow. simpl.
    assert (Hlt : selectedSuggestionIndex s < len s).
    { unfold len.
      assert (Z.to_nat (selectedSuggestionIndex s)
              < List.length (suggestions s))%nat
        by (apply nth_error_Some; rewrite H; discriminate).
      lia. }
    apply Z.leb_le in Hlo. apply Z.ltb_lt in Hlt. now rewrite Hlo, Hlt.
  - revert E.
    destruct e as [data|value|[| | | |]| |[| |]|index|index|];
      try (rewrite step_InputChange; reflexivity);
      unfold runsSearch, selected; step_cases;
      try reflexivity; try discriminate; intros E;
      try discriminate; try congruence.
  destruct (showSuggestions s); discriminate.
Qed.

(** What one event does to [products], [loading], [input] and
    [showSuggestions]. *)
Lemma step_products s e :
  products (step s e) =
  match e with
  | FetchResolved data => data
  | _ => products s
  end.
Proof.
  destruct e as [data|value|[| | | |]| |[| |]|index|index|];
    try (rewrite step_InputChange; reflexivity);
    step_cases; reflexivity.
Qed.

Lemma step_loading s e :
  loading (step s e) =
  if runsSearch s e && truthy (trim (input s)) then false else loading s.
Proof.
  destruct e as [data|value|[| | | |]| |[| |]|index|index|];
    try (rewrite step_InputChange; reflexivity);
    unfold runsSearch; step_cases;
    try reflexivity; try discriminate.
  all: exfalso; eapply nth_error_in_range; [|eassumption]; lia.
Qed.

Lemma step_input s e :
  input (step s e) =
  match e with
  | InputChange value => value
  | _ => match selected s e with
         | Some product => cropId product
         | None => input s
         end
  end.
Proof.
  destruct e as [data|value|[| | | |]| |[| |]|index|index|];
    try (rewrite step_InputChange; reflexivity);
    unfold selected; step_cases;
    try reflexivity; try discriminate; try congruence.
  all: try (destruct (showSuggestions s); discriminate).
Qed.

Lemma step_showSuggestions s e :
  showSuggestions (step s e) =
  match e with
  | InputChange value => truthy (trim value)
  | KeyDown ArrowDown => showSuggestions s || (0 <? len s)
  | KeyDown Escape => false
  | Focus => showSuggestions s || truthy (trim (input s)) && (0 <? len s)
  | MouseDown Elsewhere => showSuggestions s && negb (0 <? len s)
  | _ => match selected s e with
         | Some _ => false
         | None => showSuggestions s
         end
  end.
Proof.
  destruct e as [data|value|[| | | |]| |[| |]|index|index|];
    try (rewrite step_InputChange; reflexivity);
    unfold selected, dropdownRendered; step_cases;
    try reflexivity; try discriminate; try congruence.
  all: unfold dropdownRendered in *; simpl;
    destruct (showSuggestions s), (0 <? len s); simpl in *; congruence.
Qed.

(* ------------------------------------------------------------------ *)
(** ** Further properties: the guards and the lookups                  *)
(* ------------------------------------------------------------------ *)

(** The guard [value.trim()] of [handleInputChange] and [!input.trim()] of
    [handleSearch] and of the search button fail exactly on texts made of
    white space only: such a text makes [handleSearch] return without a
    setter call and disables the button, and a text change to one closes
    the dropdown flag. *)
Theorem blank_guard_is_all_whitespace (s : State) (value : string) :
  truthy (trim value) = negb (allWhiteSpace value)
  /\ (handleSearch s = [] <-> allWhiteSpace (input s) = true)
  /\ (allWhiteSpace (input s) = true -> searchDisabled s = true)
  /\ showSuggestions (step s (InputChange value)) = negb (allWhiteSpace value)
  /\ (allWhiteSpace value = true -> suggestions (step s (InputChange value)) = []).
Proof.
  split; [apply allWhiteSpace_blank|]. split; [|split; [|split]].
  - unfold handleSearch. rewrite allWhiteSpace_blank.
    destruct (allWhiteSpace (input s)); simpl; split; try reflexivity;
      discriminate.
  - intros H. unfold searchDisabled. rewrite allWhiteSpace_blank, H.
    apply orb_true_r.
  - rewrite step_InputChange. apply allWhiteSpace_blank.
  - intros H. rewrite step_InputChange. cbn [suggestions]. unfold suggest.
    now rewrite allWhiteSpace_blank, H.
Qed.

(** Both lookups ignore the case of the query: two texts with the same
    lower-case form get the same suggestions and the same search hit. *)
Theorem query_case_insensitive (products : list Product) (q q' : string) :
  toLowerCase q = toLowerCase q' ->
  suggest products q = suggest products q'
  /\ findBest products q = findBest products q'.
Proof.
  intros H. split.
  - unfold suggest, filtered. rewrite (blank_fold q q' H).
    destruct (truthy (trim q')); [|reflexivity]. f_equal.
    apply filter_ext. intros p. now apply matchesIdOrTitle_fold.
  - unfold findBest. f_equal. unfold matchesId.
    now rewrite <- !trim_toLowerCase, H.
Qed.

Lemma query_case_insensitive_witness :
  suggest scenarioCatalog "CoRn" = suggest scenarioCatalog "corn"
  /\ findBest scenarioCatalog "CoRn" = Some sweetCorn.
Proof.
  destruct (query_case_insensitive scenarioCatalog "CoRn" "corn" eq_refl)
    as [Hs Hf].
  split; [exact Hs | rewrite Hf; reflexivity].
Defined.

(** A text whose lower-case form contains the lower-case form of another
    text matches no catalog entry that the other does not: the entries that
    pass the suggestions filter for it are, in catalog order, among those
    that pass for the other; and when the same holds of the trimmed texts, a
    search that hits for it hits for the other. *)
Theorem contained_query_narrows_matches
  (products : list Product) (q q' : string) :
  Substring (toLowerCase q) (toLowerCase q') ->
  Subsequence (filtered products q') (filtered products q)
  /\ (Substring (toLowerCase (trim q)) (toLowerCase (trim q')) ->
      forall hit', findBest products q' = Some hit' ->
      exists hit, findBest products q = Some hit).
Proof.
  intros H. split.
  - apply Subsequence_filter_impl. intros p.
    rewrite !matchesIdOrTitle_spec. unfold ContainsQuery.
    intros [Hp | Hp]; [left | right];
      (eapply Substring_trans; [exact H | exact Hp]).
  - intros Ht hit' Hhit. apply find_some in Hhit as [Hin Hm].
    apply (findBest_hit products q hit' Hin).
    apply matchesId_spec. apply matchesId_spec in Hm.
    unfold IdContainsQuery in *.
    eapply Substring_trans; [exact Ht | exact Hm].
Qed.

(** "whe" and then "WHEAT": typing on keeps or drops entries. *)
Lemma contained_query_narrows_matches_witness :
  Subsequence (filtered scenarioCatalog "WHEAT")
              (filtered scenarioCatalog "whe")
  /\ filtered scenarioCatalog "WHEAT" = [winterWheat].
Proof.
  assert (H : Substring (toLowerCase "whe") (toLowerCase "WHEAT"))
    by (exists "", "at"; reflexivity).
  split; [|reflexivity].
  exact (proj1 (contained_query_narrows_matches scenarioCatalog
                  "whe" "WHEAT" H)).
Defined.

(* ------------------------------------------------------------------ *)
(** ** Further properties: what holds in every state the page reaches  *)
(* ------------------------------------------------------------------ *)

(** [loading] is [false] after every event: [handleSearch] sets it and
    resets it in the same batch, so the "Searching" button is never
    rendered and the search button is disabled exactly on a blank input. *)
Theorem loading_never_observed (events : list Event) :
  loading (after events) = false
  /\ searchDisabled (after events)
     = negb (truthy (trim (input (after events)))).
Proof.
  assert (H : loading (after events) = false).
  { induction events as [|e events IH] using rev_ind; [reflexivity|].
    rewrite after_snoc, step_loading, IH.
    now destruct (runsSearch _ e && _). }
  split; [exact H|]. unfold searchDisabled. now rewrite H.
Qed.

(** In every state the page reaches there are at most 5 suggestions and the
    highlighted index is between -1 and 4. *)
Theorem reachable_suggestions_bounded (events : list Event) :
  (List.length (suggestions (after events)) <= 5)%nat
  /\ -1 <= selectedSuggestionIndex (after events) <= 4.
Proof.
  assert (H : (List.length (suggestions (after events)) <= 5)%nat).
  { induction events as [|e events IH] using rev_ind; [simpl; lia|].
    rewrite after_snoc, step_suggestions.
    destruct e; try exact IH. apply suggest_length. }
  split; [exact H|].
  pose proof (after_IndexInRange events) as Hi.
  unfold IndexInRange, len in Hi. lia.
Qed.

Lemma searchOutcome_consistent s :
  match fst (searchOutcome s) with
  | Some r => Substring (toLowerCase (crop r))
                        (toLowerCase (cropId (matchedProduct r)))
  | None => True
  end.
Proof.
  unfold searchOutcome.
  destruct (findBest (products s) (input s)) as [matched|] eqn:E;
    [|exact I].
  apply find_some in E as [_ E]. now apply matchesId_spec in E.
Qed.

Lemma step_ResultConsistent s e :
  ResultConsistent s -> ResultConsistent (step s e).
Proof.
  unfold ResultConsistent. intros H. rewrite step_result.
  destruct (runsSearch s e && truthy (trim (input s)));
    [apply searchOutcome_consistent|].
  destruct (selected s e); [apply Substring_refl | exact H].
Qed.

(** In every state the page reaches, the text of a displayed result occurs,
    up to case, in the [cropId] of the product displayed with it, whether the
    result came from a search or from a selection. *)
Theorem reachable_result_consistent (events : list Event) :
  match result (after events) with
  | Some r =>
      Substring (toLowerCase (crop r))
                (toLowerCase (cropId (matchedProduct r)))
  | None => True
  end.
Proof.
  change (ResultConsistent (after events)).
  induction events as [|e events IH] using rev_ind; [exact I|].
  rewrite after_snoc. now apply step_ResultConsistent.
Qed.

(** The catalog is written by the fetch only: in every state the page
    reaches it is the data of the last fetch that resolved, and the empty
    list before that; a fetch that throws leaves the state as it is. *)
Theorem catalog_is_last_fetched (events : list Event) (s : State) (exn : string) :
  products (after events) = lastFetched events
  /\ run (fetchProducts (Throw exn)) s = s
  /\ (forall data, dispatch s (FetchResolved data) = fetchProducts (Normal data)).
Proof.
  split; [|split; reflexivity].
  induction events as [|e events IH] using rev_ind; [reflexivity|].
  rewrite after_snoc, step_products. unfold lastFetched.
  rewrite fold_left_app. simpl. fold (lastFetched events).
  now destruct e.
Qed.

Lemma after_products events : products (after events) = lastFetched events.
Proof.
  induction events as [|e events IH] using rev_ind; [reflexivity|].
  rewrite after_snoc, step_products. unfold lastFetched.
  rewrite fold_left_app. simpl. fold (lastFetched events).
  now destruct e.
Qed.

Lemma lastFetched_no_fetch events :
  filter isFetch events = [] -> lastFetched events = [].
Proof.
  unfold lastFetched. generalize (@nil Product) as catalog.
  induction events as [|e events IH]; intros catalog H; [reflexivity|].
  destruct e; simpl in *; try discriminate; now apply IH.
Qed.

Lemma Subsequence_nil_r {A : Type} (l : list A) : Subsequence l [] -> l = [].
Proof. now inversion 1. Qed.

Lemma Subsequence_In {A : Type} (l m : list A) x :
  Subsequence l m -> In x l -> In x m.
Proof.
  induction 1 as [|y l m H IH|y l m H IH]; simpl; [tauto | tauto |].
  intros [->|Hx]; [now left | right; now apply IH].
Qed.

Lemma step_SuggestionsFromCatalog s e :
  SuggestionsFromCatalog s ->
  isFetch e = false \/ products s = [] ->
  SuggestionsFromCatalog (step s e).
Proof.
  unfold SuggestionsFromCatalog. intros H Hfetch.
  rewrite step_suggestions, step_products.
  destruct e as [data|value| | | | | |]; try exact H.
  - destruct Hfetch as [Hf | Hp]; [discriminate|].
    rewrite Hp in H. apply Subsequence_nil_r in H. rewrite H.
    apply Subsequence_nil_l.
  - apply suggest_Subsequence.
Qed.

(** The fetch runs once, on mount.  When at most one fetch resolves, every
    suggestion in every state the page reaches is an entry of the catalog,
    and the suggestions are in catalog order. *)
Theorem suggestions_come_from_catalog (events : list Event) :
  (List.length (filter isFetch events) <= 1)%nat ->
  Subsequence (suggestions (after events)) (products (after events))
  /\ Forall (fun p => In p (products (after events)))
            (suggestions (after events)).
Proof.
  intros H.
  assert (Hs : SuggestionsFromCatalog (after events)).
  { induction events as [|e events IH] using rev_ind; [constructor|].
    rewrite filter_app, length_app in H.
    rewrite after_snoc. apply step_SuggestionsFromCatalog.
    - apply IH. lia.
    - destruct (isFetch e) eqn:E; [right | now left].
      simpl in H. rewrite E in H. simpl in H.
      rewrite after_products. apply lastFetched_no_fetch.
      destruct (filter isFetch events); [reflexivity | simpl in H; lia]. }
  split; [exact Hs|].
  apply Forall_forall. intros p. now apply Subsequence_In.
Qed.

(** The fetch resolves after the first key stroke. *)
Lemma suggestions_come_from_catalog_witness :
  let events := [InputChange "c"; FetchResolved scenarioCatalog;
                 InputChange "w"; KeyDown ArrowDown] in
  suggestions (after events) = [sweetCorn; winterWheat]
  /\ Forall (fun p => In p (products (after events)))
            (suggestions (after events)).
Proof.
  split; [reflexivity|].
  refine (proj2 (suggestions_come_from_catalog
                   [InputChange "c"; FetchResolved scenarioCatalog;
                    InputChange "w"; KeyDown ArrowDown] _)).
  simpl. lia.
Defined.

Lemma suggest_nil value : suggest [] value = [].
Proof. unfold suggest. now destruct (truthy (trim value)). Qed.

Lemma selected_no_suggestions s e : suggestions s = [] -> selected s e = None.
Proof.
  intros H. destruct e as [data|value|[| | | |]| |target|index|index|];
    simpl; try reflexivity.
  - unfold len. rewrite H.
    destruct (showSuggestions s && _); [|reflexivity].
    now destruct (Z.to_nat (selectedSuggestionIndex s)).
  - unfold suggestionItem, dropdownRendered, len. rewrite H. simpl.
    now rewrite andb_false_r.
Qed.

(** While no fetch has resolved (the fetch failed, or is still in flight),
    the catalog is empty, no suggestion and no result is ever shown, and
    every search that runs on a non-blank input reports "No matching product
    found.". *)
Theorem empty_catalog_never_matches (events : list Event) :
  filter isFetch events = [] ->
  let s := after events in
  products s = []
  /\ suggestions s = []
  /\ result s = None
  /\ dropdownRendered s = false
  /\ forall e, runsSearch s e = true -> trim (input s) <> "" ->
       error (step s e) = "No matching product found."
       /\ result (step s e) = None.
Proof.
  intros H. cbv zeta.
  assert (Hp : products (after events) = [])
    by (rewrite after_products; now apply lastFetched_no_fetch).
  assert (Hsr : suggestions (after events) = []
                /\ result (after events) = None).
  { clear Hp. induction events as [|e events IH] using rev_ind;
      [split; reflexivity|].
    rewrite filter_app in H. apply app_eq_nil in H as [H He].
    destruct (IH H) as [IHs IHr].
    assert (Hp : products (after events) = [])
      by (rewrite after_products; now apply lastFetched_no_fetch).
    rewrite after_snoc. split.
    - rewrite step_suggestions, Hp.
      destruct e; try exact IHs. apply suggest_nil.
    - rewrite step_result, (selected_no_suggestions _ e IHs), IHr.
      unfold searchOutcome. rewrite Hp. simpl.
      now destruct (runsSearch _ e && _). }
  destruct Hsr as [Hs Hr].
  split; [exact Hp|]. split; [exact Hs|]. split; [exact Hr|]. split.
  - unfold dropdownRendered, len. rewrite Hs. apply andb_false_r.
  - intros e He Ht. apply truthy_true in Ht.
    rewrite step_error, step_result, He, Ht. simpl.
    unfold searchOutcome. rewrite Hp. split; reflexivity.
Qed.

Lemma empty_catalog_never_matches_witness :
  let s := after [InputChange "corn"] in
  suggestions s = []
  /\ error (step s (KeyDown Enter)) = "No matching product found.".
Proof.
  pose proof (empty_catalog_never_matches [InputChange "corn"] eq_refl)
    as (_ & Hs & _ & _ & Hsearch).
  split; [exact Hs|].
  refine (proj1 (Hsearch (KeyDown Enter) eq_refl _)).
  vm_compute. discriminate.
Defined.

(* ------------------------------------------------------------------ *)
(** ** Further properties: how the events compose                      *)
(* ------------------------------------------------------------------ *)

(** Enter right after a text change: the search runs on the text typed. *)
Lemma type_then_enter s value :
  trim value <> "" ->
  step (step s (InputChange value)) (KeyDown Enter) =
  run (handleSearch (step s (InputChange value)))
      (step s (InputChange value)).
Proof.
  intros H. apply truthy_true in H.
  unfold step at 1. unfold dispatch, handleKeyDown.
  rewrite step_InputChange; cbn [showSuggestions selectedSuggestionIndex].
  rewrite H. cbn [negb Z.leb Z.compare andb].
  now rewrite effects_handleSearch.
Qed.

Lemma type_blank_then_enter s value :
  trim value = "" ->
  step (step s (InputChange value)) (KeyDown Enter) =
  step s (InputChange value).
Proof.
  intros H. unfold step at 1. unfold dispatch, handleKeyDown.
  rewrite handleSearch_blank by (rewrite step_InputChange; exact H).
  rewrite step_InputChange; cbn [showSuggestions]. rewrite H. reflexivity.
Qed.

(** Typing a text and pressing Enter searches for that text: on a non-blank
    text the result and the error are those of [findBest] on it, the
    suggestions stay and the dropdown flag stays on; on a blank text Enter
    changes nothing. *)
Theorem type_then_enter_searches (s : State) (value : string) :
  let s1 := step s (InputChange value) in
  let s2 := step s1 (KeyDown Enter) in
  if truthy (trim value)
  then match findBest (products s) value with
       | Some hit =>
           result s2 = Some (mkResult (trim value) hit) /\ error s2 = ""
       | None =>
           result s2 = None /\ error s2 = "No matching product found."
       end
       /\ input s2 = value
       /\ suggestions s2 = suggest (products s) value
       /\ showSuggestions s2 = true
       /\ selectedSuggestionIndex s2 = -1
  else s2 = s1.
Proof.
  cbv zeta. destruct (truthy (trim value)) eqn:E.
  - assert (H : trim value <> "") by now apply truthy_true.
    rewrite (type_then_enter s value H), run_search_nonblank
      by (rewrite step_InputChange; exact H).
    unfold searchOutcome. rewrite step_InputChange.
    cbn [products input result error suggestions showSuggestions
         selectedSuggestionIndex].
    rewrite E. destruct (findBest (products s) value); repeat split.
  - apply type_blank_then_enter. now apply truthy_false.
Qed.

(** A suggestion found through its [cropId] is found by the search too: if
    the text typed occurs, up to case, in the [cropId] of one of the
    suggestions shown for it, Enter ends with a result and no error. *)
Theorem id_suggestion_implies_search_hit
  (s : State) (value : string) (product : Product) :
  In product (suggestions (step s (InputChange value))) ->
  includes (toLowerCase (cropId product)) (toLowerCase value) = true ->
  let s2 := step (step s (InputChange value)) (KeyDown Enter) in
  error s2 = ""
  /\ exists hit, result s2 = Some (mkResult (trim value) hit)
                 /\ IdContainsQuery value hit.
Proof.
  intros Hin Hid. cbv zeta.
  rewrite step_InputChange in Hin. cbn [suggestions] in Hin.
  assert (Ht : truthy (trim value) = true).
  { unfold suggest in Hin. destruct (truthy (trim value));
      [reflexivity | destruct Hin]. }
  assert (Hp : In product (products s))
    by (eapply Subsequence_In; [apply suggest_Subsequence | exact Hin]).
  destruct (findBest_hit _ value _ Hp (includes_matchesId _ _ Hid))
    as [hit Hhit].
  pose proof (type_then_enter_fields := type_then_enter s value
                                          (proj1 (truthy_true _) Ht)).
  rewrite type_then_enter_fields, run_search_nonblank
    by (rewrite step_InputChange; now apply truthy_true).
  unfold searchOutcome. rewrite step_InputChange. cbn [products input].
  rewrite Hhit. cbn [error result fst snd]. split; [reflexivity|].
  exists hit. split; [reflexivity|].
  apply find_some in Hhit as [_ Hm]. now apply matchesId_spec.
Qed.

Lemma id_suggestion_implies_search_hit_witness :
  let s2 := step (step loaded (InputChange "Heat")) (KeyDown Enter) in
  error s2 = ""
  /\ exists hit, result s2 = Some (mkResult "Heat" hit)
                 /\ IdContainsQuery "Heat" hit.
Proof.
  refine (id_suggestion_implies_search_hit loaded "Heat" winterWheat _ _).
  - vm_compute. left. reflexivity.
  - reflexivity.
Defined.

(** The dropdown after a text change depends on the text and the catalog
    only: whatever event came before (a fetch aside), the text, the
    suggestions, the flag and the highlight are those of the text change
    alone. *)
Theorem text_change_forgets_history (s : State) (e : Event) (value : string) :
  isFetch e = false ->
  let s1 := step s (InputChange value) in
  let s2 := step (step s e) (InputChange value) in
  input s2 = input s1
  /\ suggestions s2 = suggestions s1
  /\ showSuggestions s2 = showSuggestions s1
  /\ selectedSuggestionIndex s2 = selectedSuggestionIndex s1
  /\ dropdownRendered s2 = dropdownRendered s1.
Proof.
  intros He. cbv zeta. rewrite !step_InputChange.
  unfold dropdownRendered, len.
  cbn [input suggestions showSuggestions selectedSuggestionIndex].
  rewrite step_products. destruct e; try discriminate; repeat split.
Qed.

Lemma text_change_forgets_history_witness :
  let s := step (step loaded (InputChange "w")) (KeyDown ArrowDown) in
  selectedSuggestionIndex s = 0
  /\ suggestions (step (step s (KeyDown Escape)) (InputChange "corn"))
     = suggestions (step s (InputChange "corn")).
Proof.
  split; [reflexivity|].
  exact (proj1 (proj2
    (text_change_forgets_history
       (step (step loaded (InputChange "w")) (KeyDown ArrowDown))
       (KeyDown Escape) "corn" eq_refl))).
Defined.

(** Enter after a selection searches for the selected [cropId] and, when the
    selected product is in the catalog, always finds a product: a result is
    shown, and with a non-blank [cropId] the error is cleared. *)
Theorem selection_then_enter_finds_product
  (s : State) (e : Event) (product : Product) :
  Selects s e product ->
  In product (products s) ->
  let s2 := step (step s e) (KeyDown Enter) in
  if truthy (trim (cropId product))
  then error s2 = ""
       /\ exists hit, result s2 = Some (mkResult (trim (cropId product)) hit)
                      /\ IdContainsQuery (cropId product) hit
  else s2 = step s e.
Proof.
  intros Hsel Hin. cbv zeta. rewrite (step_Selects s e product Hsel).
  unfold step, dispatch, handleKeyDown. cbn [showSuggestions negb].
  rewrite effects_handleSearch, run_handleSearch. cbn [input].
  destruct (truthy (trim (cropId product))); [|reflexivity].
  unfold searchOutcome. cbn [products input run fold_left error result].
  destruct (findBest_hit _ _ _ Hin (matchesId_self product)) as [hit Hhit].
  rewrite Hhit. split; [reflexivity|]. exists hit. split; [reflexivity|].
  apply find_some in Hhit as [_ Hm]. now apply matchesId_spec.
Qed.

(** On the catalog [ACORN; CORN]: select CORN, press Enter, get ACORN. *)
Lemma selection_then_enter_finds_product_witness :
  let s := after [FetchResolved nestedCatalog; InputChange "corn"] in
  let s2 := step (step s (ClickSuggestion 1)) (KeyDown Enter) in
  error s2 = ""
  /\ exists hit, result s2 = Some (mkResult "CORN" hit)
                 /\ IdContainsQuery "CORN" hit.
Proof.
  refine (selection_then_enter_finds_product
            (after [FetchResolved nestedCatalog; InputChange "corn"])
            (ClickSuggestion 1) corn _ _).
  - apply Selects_click. reflexivity.
  - vm_compute. right. left. reflexivity.
Defined.

(** Pointing at a dropdown item and pressing Enter selects that item. *)
Theorem hover_then_enter_selects (s : State) (index : nat) (product : Product) :
  suggestionItem s index = Some product ->
  step (step s (MouseEnterSuggestion index)) (KeyDown Enter) =
  mkState (cropId product) (suggestions s) false
          (Some (mkResult (cropId product) product)) (error s) (loading s)
          (products s) (Z.of_nat index).
Proof.
  intros H.
  assert (Hs1 : step s (MouseEnterSuggestion index) =
                apply (setSelectedSuggestionIndex (Z.of_nat index)) s).
  { unfold step, dispatch. now rewrite H. }
  rewrite Hs1.
  rewrite (step_Selects _ (KeyDown Enter) product); [reflexivity|].
  unfold suggestionItem, dropdownRendered in H.
  destruct (showSuggestions s) eqn:Hshow; [|discriminate]. simpl in H.
  destruct (0 <? len s); [|discriminate].
  apply Selects_enter; cbn [apply showSuggestions selectedSuggestionIndex
                            suggestions].
  - exact Hshow.
  - lia.
  - now rewrite Nat2Z.id.
Qed.

Lemma hover_then_enter_selects_witness :
  let s := step loaded (InputChange "w") in
  result (step (step s (MouseEnterSuggestion 1)) (KeyDown Enter))
  = Some (mkResult "WHEAT02" winterWheat).
Proof.
  cbv zeta.
  rewrite (hover_then_enter_selects (step loaded (InputChange "w")) 1
             winterWheat eq_refl).
  reflexivity.
Defined.

Lemma press_S key n s : press key (S n) s = press key n (step s (KeyDown key)).
Proof. reflexivity. Qed.

Lemma step_ArrowDown_open s :
  showSuggestions s = true ->
  step s (KeyDown ArrowDown) =
  apply (setSelectedSuggestionIndex
           (if selectedSuggestionIndex s <? len s - 1
            then selectedSuggestionIndex s + 1
            else selectedSuggestionIndex s)) s.
Proof.
  intros H. unfold step, dispatch, handleKeyDown. now rewrite H.
Qed.

Lemma step_ArrowUp_open s :
  showSuggestions s = true ->
  step s (KeyDown ArrowUp) =
  apply (setSelectedSuggestionIndex
           (if 0 <? selectedSuggestionIndex s
            then selectedSuggestionIndex s - 1
            else selectedSuggestionIndex s)) s.
Proof.
  intros H. unfold step, dispatch, handleKeyDown. now rewrite H.
Qed.

(** With the dropdown flag on, [n] presses of Down move the highlight up by
    [n], stopping at the last suggestion; the flag and the suggestions stay. *)
Theorem press_down_stops_at_last (n : nat) (s : State) :
  showSuggestions s = true ->
  IndexInRange s ->
  let s' := press ArrowDown n s in
  selectedSuggestionIndex s'
  = Z.min (selectedSuggestionIndex s + Z.of_nat n) (len s - 1)
  /\ suggestions s' = suggestions s
  /\ showSuggestions s' = true.
Proof.
  cbv zeta. revert s. induction n as [|n IH]; intros s Hshow Hrange.
  - unfold IndexInRange in Hrange. change (press ArrowDown 0 s) with s.
    repeat split; [lia | exact Hshow].
  - rewrite press_S, (step_ArrowDown_open s Hshow).
    unfold IndexInRange in Hrange.
    set (i := if selectedSuggestionIndex s <? len s - 1
              then selectedSuggestionIndex s + 1
              else selectedSuggestionIndex s).
    assert (Hi : i <= len s - 1
                 /\ Z.min (i + Z.of_nat n) (len s - 1)
                    = Z.min (selectedSuggestionIndex s + Z.of_nat (S n))
                            (len s - 1)
                 /\ -1 <= i).
    { subst i.
      destruct (Z.ltb_spec (selectedSuggestionIndex s) (len s - 1)); lia. }
    destruct Hi as (Hle & Hmin & Hlo).
    destruct (IH (apply (setSelectedSuggestionIndex i) s) Hshow)
      as (IHi & IHs & IHf).
    { unfold IndexInRange, len. cbn [apply selectedSuggestionIndex
                                      suggestions].
      fold (len s). lia. }
    rewrite IHi, IHs, IHf. cbn [apply selectedSuggestionIndex suggestions].
    unfold len at 1. cbn [apply suggestions]. fold (len s).
    repeat split. exact Hmin.
Qed.

Lemma press_down_stops_at_last_witness :
  let s := step loaded (InputChange "w") in
  selectedSuggestionIndex (press ArrowDown 7 s) = 1.
Proof.
  assert (Hr : IndexInRange (step loaded (InputChange "w")))
    by (unfold IndexInRange; vm_compute; split; discriminate).
  exact (proj1 (press_down_stops_at_last 7 (step loaded (InputChange "w"))
                  eq_refl Hr)).
Defined.

(** With the dropdown flag on, [n] presses of Up move a highlight down by
    [n], stopping at the first suggestion; without a highlight (-1) the
    index stays at -1: Up never takes the highlight away. *)
Theorem press_up_stops_at_first (n : nat) (s : State) :
  showSuggestions s = true ->
  let s' := press ArrowUp n s in
  selectedSuggestionIndex s'
  = (if selectedSuggestionIndex s <=? 0 then selectedSuggestionIndex s
     else Z.max (selectedSuggestionIndex s - Z.of_nat n) 0)
  /\ suggestions s' = suggestions s
  /\ showSuggestions s' = true.
Proof.
  cbv zeta. revert s. induction n as [|n IH]; intros s Hshow.
  - change (press ArrowUp 0 s) with s. repeat split; [|exact Hshow].
    destruct (Z.leb_spec (selectedSuggestionIndex s) 0); lia.
  - rewrite press_S, (step_ArrowUp_open s Hshow).
    set (i := if 0 <? selectedSuggestionIndex s
              then selectedSuggestionIndex s - 1
              else selectedSuggestionIndex s).
    destruct (IH (apply (setSelectedSuggestionIndex i) s) Hshow)
      as (IHi & IHs & IHf).
    rewrite IHi, IHs, IHf. cbn [apply selectedSuggestionIndex suggestions].
    repeat split. subst i.
    destruct (Z.ltb_spec 0 (selectedSuggestionIndex s));
      destruct (Z.leb_spec (selectedSuggestionIndex s) 0);
      destruct (Z.leb_spec (selectedSuggestionIndex s - 1) 0); lia.
Qed.

Lemma press_up_stops_at_first_witness :
  let s := press ArrowDown 2 (step loaded (InputChange "w")) in
  selectedSuggestionIndex s = 1
  /\ selectedSuggestionIndex (press ArrowUp 5 s) = 0.
Proof.
  split; [reflexivity|].
  exact (proj1 (press_up_stops_at_first 5
                  (press ArrowDown 2 (step loaded (InputChange "w")))
                  eq_refl)).
Defined.

(** Only Enter, the search button and a click on a suggestion touch what is
    displayed below the input: every other event (typing included) leaves
    [result], [error] and [loading] as they are, so a result or an error
    stays on screen while a new text is typed. *)
Theorem result_and_error_frame (s : State) (e : Event) :
  isQuery e = false ->
  result (step s e) = result s
  /\ error (step s e) = error s
  /\ loading (step s e) = loading s.
Proof.
  intros H. rewrite step_result, step_error, step_loading.
  destruct e as [data|value|[| | | |]| |target|index|index|];
    try discriminate; repeat split.
Qed.

Lemma result_and_error_frame_witness :
  let s := step (step loaded (InputChange "xyz")) ClickSearch in
  error s = "No matching product found."
  /\ error (step s (InputChange "corn")) = "No matching product found.".
Proof.
  split; [reflexivity|].
  rewrite (proj1 (proj2 (result_and_error_frame
    (step (step loaded (InputChange "xyz")) ClickSearch)
    (InputChange "corn") eq_refl))).
  reflexivity.
Defined.

Lemma step_Escape_open s :
  showSuggestions s = true ->
  step s (KeyDown Escape) =
  mkState (input s) (suggestions s) false (result s) (error s)
          (loading s) (products s) (-1).
Proof.
  intros H. unfold step, dispatch, handleKeyDown. now rewrite H.
Qed.

Lemma step_outside_rendered s :
  dropdownRendered s = true ->
  step s (MouseDown Elsewhere) =
  mkState (input s) (suggestions s) false (result s) (error s)
          (loading s) (products s) (-1).
Proof.
  intros H. unfold step, dispatch, handleClickOutside. now rewrite H.
Qed.

(** Closing: with the dropdown on screen, Escape and a mouse-down outside
    the input and the dropdown do the same thing, turn the flag off and put
    the highlight at -1, keeping every other cell.  A mouse-down inside the
    input or the dropdown, or anywhere while no dropdown is on screen,
    changes nothing. *)
Theorem escape_and_outside_click_close (s : State) :
  dropdownRendered s = true ->
  step s (KeyDown Escape) = step s (MouseDown Elsewhere)
  /\ step s (KeyDown Escape) =
     mkState (input s) (suggestions s) false (result s) (error s)
             (loading s) (products s) (-1)
  /\ dropdownRendered (step s (KeyDown Escape)) = false
  /\ step s (MouseDown InInput) = s
  /\ step s (MouseDown InDropdown) = s
  /\ forall s0 target,
       dropdownRendered s0 = false -> step s0 (MouseDown target) = s0.
Proof.
  intros H. pose proof H as H'. unfold dropdownRendered in H'.
  apply andb_true_iff in H' as [Hshow _].
  unfold step, dispatch, handleKeyDown, handleClickOutside.
  rewrite H, Hshow. repeat split.
  intros s0 [| |] H0; try reflexivity. now rewrite H0.
Qed.

Lemma escape_and_outside_click_close_witness :
  let s := step loaded (InputChange "corn") in
  dropdownRendered s = true
  /\ dropdownRendered (step s (MouseDown Elsewhere)) = false
  /\ input (step s (MouseDown Elsewhere)) = "corn".
Proof.
  assert (H : dropdownRendered (step loaded (InputChange "corn")) = true)
    by reflexivity.
  destruct (escape_and_outside_click_close _ H) as (Heq & _ & Hclosed & _).
  split; [exact H|]. rewrite <- Heq. split; [exact Hclosed | reflexivity].
Defined.

(** Escape then Down brings a dismissed dropdown back without retyping: the
    dropdown is on screen again over the same suggestions, with no item
    highlighted. *)
Theorem escape_then_down_reopens (s : State) :
  dropdownRendered s = true ->
  let s2 := step (step s (KeyDown Escape)) (KeyDown ArrowDown) in
  s2 = mkState (input s) (suggestions s) true (result s) (error s)
               (loading s) (products s) (-1)
  /\ dropdownRendered s2 = true.
Proof.
  intros H. pose proof H as H'. unfold dropdownRendered in H'.
  apply andb_true_iff in H' as [Hshow Hlen].
  cbv zeta. rewrite (step_Escape_open s Hshow).
  unfold step, dispatch, handleKeyDown, dropdownRendered, len.
  cbn [showSuggestions suggestions negb]. unfold len in Hlen.
  rewrite Hlen. split; [reflexivity|].
  cbn [run effects existsb isSetSuggestions orb fold_left apply
       showSuggestions suggestions andb].
  exact Hlen.
Qed.

Lemma escape_then_down_reopens_witness :
  let s := step (step loaded (InputChange "w")) (KeyDown ArrowDown) in
  let s2 := step (step s (KeyDown Escape)) (KeyDown ArrowDown) in
  selectedSuggestionIndex s = 0
  /\ dropdownRendered s2 = true
  /\ selectedSuggestionIndex s2 = -1.
Proof.
  destruct (escape_then_down_reopens
              (step (step loaded (InputChange "w")) (KeyDown ArrowDown))
              eq_refl) as [Hs2 Hr].
  split; [reflexivity|]. split; [exact Hr|]. rewrite Hs2. reflexivity.
Defined.

(** A mouse-down outside followed by focus on the input brings the dropdown
    back when the input is non-blank, and leaves it closed when the input is
    blank. *)
Theorem outside_click_then_focus_reopens (s : State) :
  dropdownRendered s = true ->
  let s1 := step s (MouseDown Elsewhere) in
  let s2 := step s1 Focus in
  if truthy (trim (input s))
  then s2 = mkState (input s) (suggestions s) true (result s) (error s)
                    (loading s) (products s) (-1)
       /\ dropdownRendered s2 = true
  else s2 = s1 /\ dropdownRendered s2 = false.
Proof.
  intros H. pose proof H as H'. unfold dropdownRendered in H'.
  apply andb_true_iff in H' as [Hshow Hlen].
  cbv zeta. rewrite (step_outside_rendered s H).
  unfold step, dispatch, onFocus, dropdownRendered, len.
  cbn [input suggestions showSuggestions]. unfold len in Hlen. rewrite Hlen.
  destruct (truthy (trim (input s))); split; try reflexivity.
  cbn [run effects existsb isSetSuggestions orb fold_left apply
       showSuggestions suggestions andb].
  exact Hlen.
Qed.

Lemma outside_click_then_focus_reopens_witness :
  let s := step loaded (InputChange "corn") in
  dropdownRendered (step (step s (MouseDown Elsewhere)) Focus) = true.
Proof.
  exact (proj2 (outside_click_then_focus_reopens
                  (step loaded (InputChange "corn")) eq_refl)).
Defined.

(** The hint inside the input tells the truth: when it says Down gives
    options, the dropdown is off screen and Down puts it on screen without
    moving the highlight; when it says Escape closes, the dropdown is on
    screen and Escape takes it off. *)
Theorem badge_is_truthful (s : State) :
  match badge s with
  | Some DownForOptions =>
      dropdownRendered s = false
      /\ dropdownRendered (step s (KeyDown ArrowDown)) = true
      /\ selectedSuggestionIndex (step s (KeyDown ArrowDown))
         = selectedSuggestionIndex s
  | Some EscToClose =>
      dropdownRendered s = true
      /\ dropdownRendered (step s (KeyDown Escape)) = false
  | None => True
  end.
Proof.
  unfold badge.
  destruct (truthy (trim (input s)) && (0 <? len s)) eqn:E; [|exact I].
  apply andb_true_iff in E as [_ Hlen].
  destruct (showSuggestions s) eqn:Hshow.
  - unfold dropdownRendered at 1. rewrite Hshow, Hlen.
    split; [reflexivity|].
    unfold dropdownRendered. now rewrite step_showSuggestions.
  - unfold dropdownRendered at 1. rewrite Hshow.
    split; [reflexivity|].
    rewrite step_selectedSuggestionIndex. cbv zeta. rewrite Hshow.
    split; [|reflexivity].
    unfold dropdownRendered, len.
    rewrite step_showSuggestions, step_suggestions, Hshow.
    fold (len s). now rewrite Hlen.
Qed.

Lemma runsSearch_not_selected s e :
  runsSearch s e = true -> selected s e = None.
Proof.
  destruct e as [data|value|[| | | |]| |target|index|index|];
    cbn [runsSearch selected]; try discriminate; try reflexivity.
  destruct (showSuggestions s); cbn [negb orb andb]; [|reflexivity].
  destruct (_ && _); [discriminate | reflexivity].
Qed.

(** A search, found or not, leaves the text, the suggestions, the dropdown
    flag, the highlight and the catalog as they are: in particular Enter on
    an open dropdown without a highlight does not close it. *)
Theorem search_frame (s : State) (e : Event) :
  runsSearch s e = true ->
  input (step s e) = input s
  /\ suggestions (step s e) = suggestions s
  /\ showSuggestions (step s e) = showSuggestions s
  /\ selectedSuggestionIndex (step s e) = selectedSuggestionIndex s
  /\ products (step s e) = products s
  /\ dropdownRendered (step s e) = dropdownRendered s.
Proof.
  intros H. pose proof (runsSearch_not_selected s e H) as Hsel.
  unfold dropdownRendered, len.
  rewrite step_input, step_suggestions, step_showSuggestions,
    step_selectedSuggestionIndex, step_products, Hsel.
  destruct e as [data|value|[| | | |]| |target|index|index|];
    try discriminate; repeat split.
Qed.

Lemma search_frame_witness :
  let s := step loaded (InputChange "corn") in
  dropdownRendered s = true
  /\ dropdownRendered (step s (KeyDown Enter)) = true.
Proof.
  split; [reflexivity|].
  rewrite (proj2 (proj2 (proj2 (proj2 (proj2
    (search_frame (step loaded (InputChange "corn")) (KeyDown Enter)
       eq_refl)))))).
  reflexivity.
Defined.

(** Enter never reads [suggestions] out of bounds: in every state it either
    runs the search or calls [selectSuggestion] on an entry that exists at
    [selectedSuggestionIndex], so [selectSuggestion] is never handed
    [undefined]. *)
Theorem enter_never_reads_out_of_bounds (s : State) :
  dispatch s (KeyDown Enter) = handleSearch s
  \/ exists product,
       nth_error (suggestions s) (Z.to_nat (selectedSuggestionIndex s))
         = Some product
       /\ 0 <= selectedSuggestionIndex s < len s
       /\ dispatch s (KeyDown Enter) = selectSuggestion product.
Proof.
  unfold dispatch, handleKeyDown.
  destruct (showSuggestions s); simpl; [|now left].
  destruct (0 <=? selectedSuggestionIndex s) eqn:Hlo; simpl; [|now left].
  destruct (selectedSuggestionIndex s <? len s) eqn:Hhi; [|now left].
  apply Z.leb_le in Hlo. apply Z.ltb_lt in Hhi.
  destruct (nth_error (suggestions s)
                      (Z.to_nat (selectedSuggestionIndex s)))
    as [product|] eqn:E.
  - right. exists product. repeat split; assumption.
  - exfalso. apply (nth_error_in_range s (selectedSuggestionIndex s));
      [lia | exact E].
Qed.

(* ------------------------------------------------------------------ *)
(** ** C8: the [catch] branch of the search                            *)
(* ------------------------------------------------------------------ *)

Lemma findC_normal {A : Type} (callback : A -> Completion bool) (l : list A) :
  (forall x, In x l -> exists b, callback x = Normal b) ->
  exists found, findC callback l = Normal found
                /\ match found with
                   | Some x => In x l
                   | None => True
                   end.
Proof.
  induction l as [|x l IH]; intros H; simpl.
  - now exists None.
  - destruct (H x (or_introl eq_refl)) as [b Hb]. rewrite Hb. simpl.
    destruct b.
    + exists (Some x). split; [reflexivity | now left].
    + destruct IH as (found & Hf & Hin);
        [intros y Hy; apply H; now right|].
      exists found. split; [exact Hf|].
      destruct found; [now right | exact I].
Qed.

(** On an entry with a string [cropId] the callback completes normally. *)
Lemma runtime_matchesIdC_normal input product :
  Runtime.hasStringCropId product = true ->
  exists b, Runtime.matchesIdC input product = Normal b.
Proof.
  unfold Runtime.hasStringCropId, Runtime.matchesIdC.
  destruct (Runtime.getCropId product) as [[[]|]|]; try discriminate.
  intros _. eexists. reflexivity.
Qed.

Lemma runtime_hasStringCropId_truthy product :
  Runtime.hasStringCropId product = true -> Runtime.jsTruthy product = true.
Proof. destruct product; try discriminate; reflexivity. Qed.

Lemma runtime_tryFind_normal s :
  Runtime.wellFormedCatalog (Runtime.products s) = true ->
  exists found, Runtime.tryFind s = Normal found
                /\ match found with
                   | Some matched => Runtime.jsTruthy matched = true
                   | None => True
                   end.
Proof.
  unfold Runtime.wellFormedCatalog, Runtime.tryFind, Runtime.arrayFind.
  destruct (Runtime.products s) as [| | | |items|]; try discriminate.
  intros H. rewrite forallb_forall in H.
  destruct (findC_normal (Runtime.matchesIdC (Runtime.input s)) items)
    as (found & Hf & Hin).
  { intros x Hx. apply runtime_matchesIdC_normal. now apply H. }
  exists found. split; [exact Hf|].
  destruct found as [matched|]; [|exact I].
  apply runtime_hasStringCropId_truthy. now apply H.
Qed.

(** What [handleSearch] leaves in [error] on a well-formed catalog. *)
Lemma runtime_handleSearch_error s :
  Runtime.wellFormedCatalog (Runtime.products s) = true ->
  Runtime.error (Runtime.run (Runtime.handleSearch s) s) = Runtime.error s
  \/ Runtime.error (Runtime.run (Runtime.handleSearch s) s) = ""
  \/ Runtime.error (Runtime.run (Runtime.handleSearch s) s)
     = "No matching product found.".
Proof.
  intros H. destruct (runtime_tryFind_normal s H) as (found & Hf & Ht).
  unfold Runtime.handleSearch. rewrite Hf.
  destruct (negb (truthy (trim (Runtime.input s)))); [now left|].
  destruct found as [matched|]; [rewrite Ht|]; simpl; tauto.
Qed.

Lemma runtime_after_snoc events e :
  Runtime.after (events ++ [e]) = Runtime.step (Runtime.after events) e.
Proof. unfold Runtime.after. now rewrite fold_left_app. Qed.

(** While every fetch delivers an array of entries with string [cropId]s,
    the catalog is such an array and [error] is empty or the no-match
    message. *)
Lemma runtime_after_wellFormed events :
  forallb Runtime.wellFormedEvent events = true ->
  Runtime.wellFormedCatalog (Runtime.products (Runtime.after events)) = true
  /\ (Runtime.error (Runtime.after events) = ""
      \/ Runtime.error (Runtime.after events)
         = "No matching product found.").
Proof.
  induction events as [|e events IH] using rev_ind; intros H.
  - split; [reflexivity | now left].
  - rewrite forallb_app in H. apply andb_true_iff in H as [H He].
    simpl in He. rewrite andb_true_r in He.
    destruct (IH H) as [IHp IHe]. rewrite runtime_after_snoc.
    set (s := Runtime.after events) in *.
    destruct e as [data|value|]; unfold Runtime.step, Runtime.dispatch.
    + split; [exact He | exact IHe].
    + split; [exact IHp | exact IHe].
    + destruct (Runtime.loading s || negb (truthy (trim (Runtime.input s))));
        [split; [exact IHp | exact IHe]|].
      split.
      * unfold Runtime.handleSearch.
        destruct (negb (truthy (trim (Runtime.input s)))); [exact IHp|].
        destruct (Runtime.tryFind s) as [[matched|]|exn];
          [destruct (Runtime.jsTruthy matched)| |]; exact IHp.
      * destruct (runtime_handleSearch_error s IHp) as [E | [E | E]];
          rewrite E; tauto.
Qed.

(** C8, as stated, fails on the data the fetch can deliver: the text "corn"
    is typed, the fetch resolves with a one-entry array whose entry has no
    [cropId], and the search button is clicked; [product.cropId] is
    [undefined], [toLowerCase] on it throws inside the [try] block, and the
    [catch] branch sets "Failed to fetch products.". *)
Lemma C8_catch_reached_without_cropId :
  let s := Runtime.after [Runtime.InputChange "corn";
                          Runtime.FetchResolved Runtime.untitledCatalog] in
  Runtime.tryFind s = Throw "TypeError"
  /\ In (Runtime.setError "Failed to fetch products.")
        (Runtime.handleSearch s)
  /\ Runtime.error (Runtime.step s Runtime.ClickSearch)
     = "Failed to fetch products.".
Proof.
  cbv zeta. split; [reflexivity|]. split; [|reflexivity].
  vm_compute. right. right. right. left. reflexivity.
Qed.

(** C8 (amended): as long as every fetch delivers an array whose entries
    are objects with a string [cropId] (what [Product[]] declares of the
    field the search reads), for every input and every sequence of events
    the lookup of the [try] block completes normally, [handleSearch] never
    calls [setError("Failed to fetch products.")], and the only error shown
    is "No matching product found.": [error] is empty or is that message. *)
Theorem C8_catch_unreachable_on_string_cropIds
  (events : list Runtime.Event) :
  forallb Runtime.wellFormedEvent events = true ->
  let s := Runtime.after events in
  (exists found, Runtime.tryFind s = Normal found)
  /\ ~ In (Runtime.setError "Failed to fetch products.")
          (Runtime.handleSearch s)
  /\ (Runtime.error s = ""
      \/ Runtime.error s = "No matching product found.")
  /\ Runtime.error s <> "Failed to fetch products."
  /\ forall e, Runtime.wellFormedEvent e = true ->
       Runtime.error (Runtime.step s e) <> "Failed to fetch products.".
Proof.
  intros H. cbv zeta.
  destruct (runtime_after_wellFormed events H) as [Hp He].
  destruct (runtime_tryFind_normal _ Hp) as (found & Hf & Ht).
  split; [now exists found|]. split; [|split; [exact He|split]].
  - unfold Runtime.handleSearch. rewrite Hf.
    destruct (negb (truthy (trim (Runtime.input (Runtime.after events)))));
      [intros []|].
    destruct found as [matched|]; [rewrite Ht|]; simpl;
      intros Hin; repeat destruct Hin as [Hin|Hin];
      try discriminate; exact Hin.
  - destruct He as [-> | ->]; discriminate.
  - intros e Hwf.
    assert (H' : forallb Runtime.wellFormedEvent (events ++ [e]) = true)
      by (rewrite forallb_app, H; simpl; now rewrite Hwf).
    destruct (runtime_after_wellFormed _ H') as [_ He'].
    rewrite runtime_after_snoc in He'.
    destruct He' as [-> | ->]; discriminate.
Qed.

(** The catalog of the scenarios, parsed, a text without a match and the
    search button. *)
Lemma C8_catch_unreachable_on_string_cropIds_witness :
  let events := [Runtime.FetchResolved
                   (Runtime.JArray (map Runtime.encode scenarioCatalog));
                 Runtime.InputChange "xyz"] in
  forallb Runtime.wellFormedEvent events = true
  /\ Runtime.error (Runtime.step (Runtime.after events) Runtime.ClickSearch)
     = "No matching product found."
  /\ Runtime.error (Runtime.step (Runtime.after events) Runtime.ClickSearch)
     <> "Failed to fetch products.".
Proof.
  assert (H : forallb Runtime.wellFormedEvent
                [Runtime.FetchResolved
                   (Runtime.JArray (map Runtime.encode scenarioCatalog));
                 Runtime.InputChange "xyz"] = true) by reflexivity.
  split; [exact H|]. split; [reflexivity|].
  exact (proj2 (proj2 (proj2 (proj2
    (C8_catch_unreachable_on_string_cropIds _ H)))) Runtime.ClickSearch
    eq_refl).
Defined.

(** On a catalog of [Product] records the lookup on the parsed data is the
    typed one: [Page] is [Runtime] on well-typed catalogs. *)
Lemma runtime_tryFind_encode (catalog : list Product) (text : string)
  (r : option (string * Runtime.Json)) (e : string) (l : bool) :
  Runtime.tryFind
    (Runtime.mkCells text (Runtime.JArray (map Runtime.encode catalog))
                     r e l)
  = Normal (option_map Runtime.encode (findBest catalog text)).
Proof.
  unfold Runtime.tryFind, Runtime.arrayFind, findBest.
  cbn [Runtime.products Runtime.input].
  induction catalog as [|product catalog IH]; [reflexivity|].
  cbn [map findC find].
  change (Runtime.matchesIdC text (Runtime.encode product))
    with (@Normal bool (matchesId text product)).
  cbn [bind]. destruct (matchesId text product); [reflexivity | exact IH].
Qed.

Lemma runtime_encode_wellFormed (catalog : list Product) :
  Runtime.wellFormedCatalog (Runtime.JArray (map Runtime.encode catalog))
  = true.
Proof.
  simpl. induction catalog as [|product catalog IH]; [reflexivity|].
  cbn [map forallb]. now rewrite IH.
Qed.

(** The [try] block throws exactly when [products] is not an array, or
    [find] meets an entry without a string [cropId] before any entry
    matches. *)
Lemma runtime_tryFind_throws_iff (s : Runtime.Cells) (items : list Runtime.Json) :
  Runtime.products s = Runtime.JArray items ->
  (exists exn, Runtime.tryFind s = Throw exn) <->
  exists before bad rest,
    items = before ++ bad :: rest
    /\ Runtime.hasStringCropId bad = false
    /\ Forall (fun j => Runtime.matchesIdC (Runtime.input s) j
                        = Normal false) before.
Proof.
  intros Hp. unfold Runtime.tryFind, Runtime.arrayFind. rewrite Hp. clear Hp.
  induction items as [|j items IH]; cbn [findC].
  - split; [intros [exn H]; discriminate|].
    intros ([|x before] & bad & rest & H & _); discriminate.
  - destruct (Runtime.hasStringCropId j) eqn:Hj.
    + destruct (runtime_matchesIdC_normal (Runtime.input s) j Hj) as [b Hb].
      rewrite Hb. cbn [bind]. destruct b.
      * split; [intros [exn H]; discriminate|].
        intros ([|x before] & bad & rest & H & Hbad & Hbefore);
          injection H as <- _; [congruence|].
        inversion Hbefore; subst. congruence.
      * rewrite IH. split.
        -- intros (before & bad & rest & -> & Hbad & Hbefore).
           exists (j :: before), bad, rest. repeat split; [exact Hbad|].
           now constructor.
        -- intros ([|x before] & bad & rest & H & Hbad & Hbefore);
             injection H as <- ->; [congruence|].
           inversion Hbefore; subst.
           exists before, bad, rest. repeat split; assumption.
    + split.
      * intros _. exists [], j, items. repeat split; [exact Hj | constructor].
      * intros _. unfold Runtime.hasStringCropId in Hj.
        unfold Runtime.matchesIdC.
        destruct (Runtime.getCropId j) as [[[]|]|]; try discriminate;
          eexists; reflexivity.
Qed.
